(** * Paginated resource synchronizer of the GitLab integration

    Shallow embedding of
      - [integrations/gitlab-v2/clients/rest_client.py]
        ([RestClient._make_paginated_request]), and
      - [integrations/gitlab-v2/clients/graphql_client.py]
        ([GraphQLClient._execute_query], [_execute_paginated_query],
        [_fetch_paginated_fields], [_paginate_field],
        [_process_nested_fields]),
    together with the properties the specification states about them.

    Conventions.
      - A Python [dict] is an association list in insertion order.
      - The transport ([send_api_request]) is a function from the request to
        what comes back: a raised exception or a parsed body.
      - An [async] generator is either run by its consumer loop, which gives
        the trace of what it did (the two top-level paginators), or is a
        state machine with one transition per [anext] (the nested streams,
        which the merger advances one step at a time).
      - [logger.error] calls are events of the trace; [logger.debug] calls
        are left out.

    Part I holds the embedding, Part II the concrete inputs used as
    examples, Part III the theorems. *)

From Stdlib Require Import ZArith String.
From stdpp Require Import base strings numbers list.
Open Scope string_scope.
Open Scope list_scope.

(** * Part I: the embedding *)

(** ** Python values used as parameters and variables *)

Module Py.

(** The scalars that occur as request parameters and query variables. *)
Inductive value :=
| None_
| Bool (b : bool)
| Int (z : Z)
| Str (s : string).

Definition dict := list (string * value).

(** [d.get(k)]: [None] when the key is missing. *)
Fixpoint get (d : dict) (k : string) : option value :=
  match d with
  | [] => None
  | (k', v) :: d' => if String.eqb k' k then Some v else get d' k
  end.

(** [d[k] = v]: an existing key keeps its position, a new key goes last. *)
Fixpoint set (d : dict) (k : string) (v : value) : dict :=
  match d with
  | [] => [(k, v)]
  | (k', v') :: d' =>
      if String.eqb k' k then (k', v) :: d' else (k', v') :: set d' k v
  end.

(** [{**d1, **d2}]: the entries of [d2] are stored into [d1] in order. *)
Definition update (d1 d2 : dict) : dict :=
  fold_left (fun d kv => set d (fst kv) (snd kv)) d2 d1.

(** [params or {}] and [variables or {}]. *)
Definition or_empty (d : option dict) : dict :=
  match d with
  | Some d' => d'
  | None => []
  end.

(** A cursor as a variable: [None] or a [str]. *)
Definition of_cursor (c : option string) : value :=
  match c with
  | Some s => Str s
  | None => None_
  end.

End Py.

(** ** What a generator does: events, and how far its consumer got *)

Inductive event (Req Batch : Type) :=
| Call (r : Req)            (* one remote call *)
| Yield (b : Batch)         (* one batch handed to the consumer *)
| LogError (msg : string).  (* logger.error *)

Arguments Call {Req Batch} r.
Arguments Yield {Req Batch} b.
Arguments LogError {Req Batch} msg.

Inductive status :=
| Stopped         (* the generator returned: StopAsyncIteration *)
| Failed          (* an exception left the generator *)
| Suspended.      (* the consumer stopped pulling: iterations remain *)

Definition calls {Req Batch} (t : list (event Req Batch)) : list Req :=
  omap (fun e => match e with Call r => Some r | _ => None end) t.

Definition yields {Req Batch} (t : list (event Req Batch)) : list Batch :=
  omap (fun e => match e with Yield b => Some b | _ => None end) t.

Definition errors_logged {Req Batch} (t : list (event Req Batch)) : list string :=
  omap (fun e => match e with LogError m => Some m | _ => None end) t.

(** ** RestClient: page/offset pagination *)

Module RestClient.

Definition DEFAULT_PAGE_SIZE : Z := 100.

(** One remote entity of a REST list response, kept opaque. *)
Definition record := string.

Record request :=
  Request { rq_method : string; rq_path : string; rq_params : Py.dict }.

(** What [send_api_request] gives back: it raises, or returns the list. *)
Inductive reply :=
| Raised
| Body (response : list record).

Section Paginate.

Variable send_api_request : request -> reply.
Variable path : string.
Variable params : option Py.dict.
Variable page_size : Z.

(** [{**params_dict, "per_page": page_size, "page": page}] *)
Definition request_params (page : Z) : Py.dict :=
  Py.set (Py.set (Py.or_empty params) "per_page" (Py.Int page_size))
         "page" (Py.Int page).

Definition page_request (page : Z) : request :=
  Request "GET" path (request_params page).

(** The [while True] loop of [_make_paginated_request] entered with the
    page counter at [page]; one unit of fuel per iteration. *)
Fixpoint paginate_from (fuel : nat) (page : Z)
  : list (event request (list record)) * status :=
  match fuel with
  | O => ([], Suspended)
  | S fuel' =>
      match send_api_request (page_request page) with
      | Raised => ([Call (page_request page)], Failed)
      | Body response =>
          match response with
          | [] => ([Call (page_request page)], Stopped)
          | _ :: _ =>
              if (Z.of_nat (length response) <? page_size)%Z
              then ([Call (page_request page); Yield response], Stopped)
              else
                let '(t, s) := paginate_from fuel' (page + 1)%Z in
                (Call (page_request page) :: Yield response :: t, s)
          end
      end
  end.

Definition _make_paginated_request (fuel : nat) := paginate_from fuel 1%Z.

(** The events of [n] iterations that each yield their page and go on,
    from page counter [page]. *)
Fixpoint full_pages (n : nat) (page : Z) : list (event request (list record)) :=
  match n with
  | O => []
  | S n' =>
      match send_api_request (page_request page) with
      | Body response =>
          Call (page_request page) :: Yield response :: full_pages n' (page + 1)%Z
      | Raised => []
      end
  end.

(** The events of the iteration that receives the response at which the
    loop breaks: its call, and the batch when the response is not empty. *)
Definition terminal (page : Z) (last_response : list record)
  : list (event request (list record)) :=
  Call (page_request page) ::
  match last_response with
  | [] => []
  | _ :: _ => [Yield last_response]
  end.

(** The response to page [page] is a non-empty list of at least
    [page_size] items: the loop yields it and asks for the next page. *)
Definition is_full_page (page : Z) : Prop :=
  exists response, send_api_request (page_request page) = Body response
    /\ response <> [] /\ (page_size <= Z.of_nat (length response))%Z.

(** The property as the specification words it: when the sequence has
    ended, either nothing was yielded, or the last batch yielded is
    shorter than the page size. *)
Definition last_batch_is_short : Prop :=
  forall fuel t, _make_paginated_request fuel = (t, Stopped) ->
    yields t = [] \/
    exists b, last (yields t) = Some b /\ (Z.of_nat (length b) < page_size)%Z.

End Paginate.

(** *** The callers of [_make_paginated_request] *)

Definition VALID_GROUP_RESOURCES : list string := ["issues"; "merge_requests"; "labels"].

Definition RESOURCE_PARAMS : list (string * Py.dict) :=
  [("labels",
    [("with_counts", Py.Bool true);
     ("include_descendant_groups", Py.Bool true);
     ("only_group_labels", Py.Bool false)])].

(** [RESOURCE_PARAMS.get(resource_type, {})] *)
Fixpoint resource_params (table : list (string * Py.dict)) (resource_type : string) : Py.dict :=
  match table with
  | [] => []
  | (k, d) :: table' =>
      if String.eqb k resource_type then d else resource_params table' resource_type
  end.

(** [resource_type not in self.VALID_GROUP_RESOURCES] is false. *)
Definition is_valid_group_resource (resource_type : string) : bool :=
  existsb (String.eqb resource_type) VALID_GROUP_RESOURCES.

(** [if batch: yield batch] over the batches of a trace. *)
Definition drop_empty_batches (t : list (event request (list record)))
  : list (event request (list record)) :=
  omap (fun e => match e with
                 | Yield [] => None
                 | _ => Some e
                 end) t.

Section Callers.

Variable send_api_request : request -> reply.

(** [str(e)] of the exception that the transport raises on a request. *)
Variable error_text : request -> string.

(** [str(e)] in an [except] clause around the paginator: the exception
    is the one the last call raised. *)
Definition raised_text (t : list (event request (list record))) : string :=
  match last (calls t) with
  | Some r => error_text r
  | None => ""
  end.

(** [get_resource]: the batches of the paginator with the default page
    size; an exception is logged and raised again. *)
Definition get_resource (resource_type : string) (params : option Py.dict) (fuel : nat)
  : list (event request (list record)) * status :=
  let '(t, s) := _make_paginated_request send_api_request resource_type params
                   DEFAULT_PAGE_SIZE fuel in
  match s with
  | Failed =>
      (t ++ [LogError ("Failed to fetch " +:+ resource_type +:+ ": " +:+ raised_text t)],
       Failed)
  | _ => (t, s)
  end.

(** [get_group_resource]: the [ValueError] for a resource type that is
    not supported is raised before the [try], when the generator is
    first advanced. *)
Definition get_group_resource (group_id resource_type : string) (fuel : nat)
  : list (event request (list record)) * status :=
  if negb (is_valid_group_resource resource_type) then ([], Failed)
  else
    let path := "groups/" +:+ group_id +:+ "/" +:+ resource_type in
    let request_params := resource_params RESOURCE_PARAMS resource_type in
    let '(t, s) := _make_paginated_request send_api_request path (Some request_params)
                     DEFAULT_PAGE_SIZE fuel in
    match s with
    | Failed =>
        (drop_empty_batches t
           ++ [LogError ("Failed to fetch " +:+ resource_type +:+ " for group "
                           +:+ group_id +:+ ": " +:+ raised_text t)],
         Failed)
    | _ => (drop_empty_batches t, s)
    end.

End Callers.

(** *** An endpoint that serves a list page by page *)

Definition int_param (d : Py.dict) (k : string) : option Z :=
  match Py.get d k with
  | Some (Py.Int z) => Some z
  | _ => None
  end.

(** The endpoint holds [items] and answers a request for page [page]
    with [per_page] items per page by the items of that page. *)
Definition serve_list (items : list record) (r : request) : reply :=
  match int_param (rq_params r) "page", int_param (rq_params r) "per_page" with
  | Some page, Some per_page =>
      Body (take (Z.to_nat per_page) (drop (Z.to_nat ((page - 1) * per_page)) items))
  | _, _ => Raised
  end.

End RestClient.

(** ** GraphQLClient: cursor pagination, nested streams and their merge *)

Module GraphQL.

(** *** Data *)

(** One node of a nested collection (a label, a member, ...), kept opaque. *)
Definition item := string.

(** [{"hasNextPage": bool, "endCursor": str | None}] *)
Record page_info := PageInfo { hasNextPage : bool; endCursor : option string }.

(** A field value of a resource: [Connection] is a dict that has both the
    ["nodes"] and the ["pageInfo"] key (the shape the wire format gives to
    every paginated field); [Scalar] is anything else. *)
Inductive value :=
| Scalar (s : string)
| Connection (nodes : list item) (pageInfo : page_info).

(** A resource (one project): its ["id"], a [str], and the other keys of
    the dict in order. *)
Record node := Node { node_id : string; fields : list (string * value) }.

(** [resource[field]] *)
Fixpoint lookup_field (fs : list (string * value)) (field : string) : option value :=
  match fs with
  | [] => None
  | (k, v) :: fs' => if String.eqb k field then Some v else lookup_field fs' field
  end.

Definition get_field (p : node) (field : string) : option value :=
  lookup_field (fields p) field.

(** [resource[field] = v] for a key that is there. *)
Fixpoint store_field (fs : list (string * value)) (field : string) (v : value)
  : list (string * value) :=
  match fs with
  | [] => []
  | (k, v') :: fs' =>
      if String.eqb k field then (k, v) :: fs' else (k, v') :: store_field fs' field v
  end.

(** [isinstance(value, dict) and "nodes" in value and "pageInfo" in value] *)
Definition is_paginated (v : value) : bool :=
  match v with
  | Connection _ _ => true
  | Scalar _ => false
  end.

(** [project[field]["nodes"]], the list object itself. *)
Definition nodes_of (p : node) (field : string) : option (list item) :=
  match get_field p field with
  | Some (Connection l _) => Some l
  | _ => None
  end.

(** [project[field]["nodes"].extend(new)]; [None] when the subscripts
    raise (no such key, or a value that is no connection). *)
Definition extend (p : node) (field : string) (new : list item) : option node :=
  match get_field p field with
  | Some (Connection l pi) =>
      Some (Node (node_id p) (store_field (fields p) field (Connection (l ++ new) pi)))
  | _ => None
  end.

(** *** Requests and replies *)

Record request := Request { rq_query : string; rq_variables : Py.dict }.

(** [data[resource_field]]: ["nodes"] and ["pageInfo"], each possibly
    missing. *)
Record resource_data :=
  ResourceData { rd_nodes : option (list node); rd_pageInfo : option page_info }.

Definition data := list (string * resource_data).

Fixpoint lookup_resource (d : data) (resource_field : string) : option resource_data :=
  match d with
  | [] => None
  | (k, rd) :: d' => if String.eqb k resource_field then Some rd else lookup_resource d' resource_field
  end.

(** What [send_api_request] gives back: it raises (the message is
    [str(e)]), or returns a body with its ["errors"] and ["data"] keys,
    each possibly missing. *)
Inductive reply :=
| Raised (msg : string)
| Body (errors : option string) (payload : option data).

(** *** Generator states *)

(** What [anext] hands to the merger as [nodes]: [Known] is the list
    object [parent[field]["nodes"]] itself (line 107, yielded at line
    110), [Fetched] a list that came with a response (line 132). *)
Inductive page :=
| Known
| Fetched (nodes : list item).

(** The outcome of one [anext]. *)
Inductive anext_result :=
| Item (field_name : string) (nodes : page)
| StopAsyncIteration
| Exception.

(** [_paginate_field]: not started; suspended at one of its two [yield]s
    with the locals [parent_id] and [page_info] of the page just yielded;
    or closed. *)
Inductive paginate_state :=
| PNew
| PYielded (parent_id : string) (pi : page_info)
| PClosed.

(** [_fetch_paginated_fields]: not started, or inside the [for] loop
    with the generators from the current one on (none left: finished). *)
Inductive fetch_state :=
| FNew
| FRunning (field_generators : list (string * paginate_state)).

(** A top-level batch: the nodes, and one generator per node. *)
Definition batch : Type := list node * list fetch_state.

Definition events := list (event request batch).

Section Client.

Variable send_api_request : request -> reply.
Variable query : string.
Variable resource_field : string.

(** *** [_execute_query] *)

Definition _execute_query (variables : Py.dict) : events * option data :=
  let req := Request query variables in
  match send_api_request req with
  | Raised msg =>
      ([Call req; LogError ("Failed to execute GraphQL query: " +:+ msg)], None)
  | Body (Some e) _ =>
      ([Call req;
        LogError ("GraphQL query failed: " +:+ e);
        LogError ("Failed to execute GraphQL query: GraphQL query failed: " +:+ e)],
       None)
  | Body None None =>
      ([Call req; LogError "Failed to execute GraphQL query: 'data'"], None)
  | Body None (Some d) => ([Call req], Some d)
  end.

(** *** [_paginate_field] *)

(** [{f"{field_name}Cursor": cursor, **variables}] *)
Definition field_variables (field_name cursor : string) (variables : Py.dict) : Py.dict :=
  Py.update [(field_name +:+ "Cursor", Py.Str cursor)] variables.

Definition missing_cursor (field_name parent_id : string) : string :=
  "Missing cursor for " +:+ field_name +:+ " pagination on " +:+ parent_id.

(** Lines 126 to 132: the field of the node of the response whose id is
    [parent_id]; [None] when a subscript raises or no node matches. *)
Definition field_of_response (d : data) (parent_id field_name : string)
  : option (list item * page_info) :=
  match lookup_resource d resource_field with
  | Some (ResourceData (Some resource_nodes) _) =>
      match find (fun r => String.eqb (node_id r) parent_id) resource_nodes with
      | Some resource =>
          match get_field resource field_name with
          | Some (Connection l pi) => Some (l, pi)
          | _ => None
          end
      | None => None
      end
  | _ => None
  end.

(** One [anext] of the generator [_paginate_field(parent, field_name, ...)],
    where [parent] is the node as it is now. *)
Definition paginate_anext (variables : Py.dict) (parent : node) (field_name : string)
    (st : paginate_state) : events * anext_result * paginate_state :=
  match st with
  | PNew =>
      match get_field parent field_name with
      | Some (Connection _ pi) =>
          ([], Item field_name Known, PYielded (node_id parent) pi)
      | _ => ([], Exception, PClosed)
      end
  | PYielded parent_id pi =>
      if hasNextPage pi then
        match endCursor pi with
        | None =>
            ([LogError (missing_cursor field_name parent_id)], StopAsyncIteration, PClosed)
        | Some cursor =>
            let '(ev, response) := _execute_query (field_variables field_name cursor variables) in
            match response with
            | None => (ev, Exception, PClosed)
            | Some d =>
                match field_of_response d parent_id field_name with
                | Some (l, pi') => (ev, Item field_name (Fetched l), PYielded parent_id pi')
                | None => (ev, Exception, PClosed)
                end
            end
        end
      else ([], StopAsyncIteration, PClosed)
  | PClosed => ([], StopAsyncIteration, PClosed)
  end.

(** *** [_fetch_paginated_fields] *)

(** The list comprehension of lines 85 to 89. *)
Definition field_generators_of (resource : node) : list (string * paginate_state) :=
  omap (fun kv => if is_paginated (snd kv) then Some (fst kv, PNew) else None)
       (fields resource).

(** The [for generator in field_generators] loop, resumed. *)
Fixpoint fetch_resume (variables : Py.dict) (resource : node)
    (gens : list (string * paginate_state)) : events * anext_result * fetch_state :=
  match gens with
  | [] => ([], StopAsyncIteration, FRunning [])
  | (field, g) :: rest =>
      let '(ev, r, g') := paginate_anext variables resource field g in
      match r with
      | Item field_name nodes => (ev, Item field_name nodes, FRunning ((field, g') :: rest))
      | Exception => (ev, Exception, FRunning [])
      | StopAsyncIteration =>
          let '(ev', r', st') := fetch_resume variables resource rest in
          (ev ++ ev', r', st')
      end
  end.

(** One [anext] of the generator [_fetch_paginated_fields(resource, ...)]. *)
Definition fetch_anext (variables : Py.dict) (resource : node) (st : fetch_state)
  : events * anext_result * fetch_state :=
  match st with
  | FNew => fetch_resume variables resource (field_generators_of resource)
  | FRunning gens => fetch_resume variables resource gens
  end.

(** *** [_execute_paginated_query] *)

(** [{"cursor": cursor, **(variables or {})}] *)
Definition cursor_variables (cursor : option string) (variables : option Py.dict) : Py.dict :=
  Py.update [("cursor", Py.of_cursor cursor)] (Py.or_empty variables).

(** Lines 62 to 67: one generator per node, none started. *)
Definition nested_field_generators (nodes : list node) : list fetch_state :=
  map (fun _ => FNew) nodes.

(** The pair yielded at line 69 for a response. *)
Definition batch_of (rd : resource_data) : batch :=
  (default [] (rd_nodes rd), nested_field_generators (default [] (rd_nodes rd))).

(** The [while True] loop entered with the local [cursor]; one unit of
    fuel per iteration. *)
Fixpoint execute_paginated_from (variables : option Py.dict) (fuel : nat)
    (cursor : option string) : events * status :=
  match fuel with
  | O => ([], Suspended)
  | S fuel' =>
      let '(ev, response) := _execute_query (cursor_variables cursor variables) in
      match response with
      | None => (ev, Failed)
      | Some d =>
          match lookup_resource d resource_field with
          | None => (ev, Failed)
          | Some resource_data =>
              match default [] (rd_nodes resource_data) with
              | [] => (ev, Stopped)
              | (_ :: _) as nodes =>
                  let yielded := ev ++ [Yield (nodes, nested_field_generators nodes)] in
                  match rd_pageInfo resource_data with
                  | None => (yielded, Failed)
                  | Some pi =>
                      if negb (hasNextPage pi) then (yielded, Stopped)
                      else
                        let '(t, s) := execute_paginated_from variables fuel' (endCursor pi) in
                        (yielded ++ t, s)
                  end
              end
          end
      end
  end.

Definition _execute_paginated_query (variables : option Py.dict) (fuel : nat) :=
  execute_paginated_from variables fuel None.

(** *** [_process_nested_fields] *)

(** [active_data]: each project, given by its position in [projects],
    with its iterator. The iterator paired with a project is the
    generator [_execute_paginated_query] built over that node (lines 62
    to 69), so what it reads as [parent] is that project. *)
Definition active_data := list (nat * fetch_state).

(** One entry per project still active, with the position of the
    project in the batch; the Python list holds the dicts alone. *)
Definition snapshot := list (nat * node).

(** [await bounded_anext(field_iter)] for one pair, against the projects
    as they are when the wave starts. A position outside the batch does
    not occur ([active_data] comes from [zip] over [projects]). *)
Definition bounded_anext (variables : Py.dict) (projects : list node)
    (pair : nat * fetch_state) : anext_result * fetch_state :=
  match projects !! pair.1 with
  | Some project =>
      let '(_, r, it') := fetch_anext variables project pair.2 in (r, it')
  | None => (Exception, FRunning [])
  end.

(** The list that [nodes] names when the loop of line 156 reaches the
    result: the project's own list for [Known]. *)
Definition page_items (project : node) (field_name : string) (nodes : page)
  : option (list item) :=
  match nodes with
  | Known => nodes_of project field_name
  | Fetched l => Some l
  end.

(** The loop of lines 156 to 163 over [zip(active_data, results)]:
    the projects after it, [updated], and [next_active]; [None] when
    line 160 raises. *)
Fixpoint merge_results (projects : list node)
    (todo : list ((nat * fetch_state) * (anext_result * fetch_state)))
  : option (list node * bool * active_data) :=
  match todo with
  | [] => Some (projects, false, [])
  | ((k, _), (result, it')) :: todo' =>
      match result with
      | Item field_name nodes =>
          match projects !! k with
          | None => None
          | Some project =>
              match page_items project field_name nodes with
              | None => None
              | Some [] =>
                  match merge_results projects todo' with
                  | Some (projects', updated, next_active) =>
                      Some (projects', updated, (k, it') :: next_active)
                  | None => None
                  end
              | Some ((_ :: _) as new) =>
                  match extend project field_name new with
                  | None => None
                  | Some project' =>
                      match merge_results (<[k := project']> projects) todo' with
                      | Some (projects', _, next_active) =>
                          Some (projects', true, (k, it') :: next_active)
                      | None => None
                      end
                  end
              end
          end
      | _ => merge_results projects todo'
      end
  end.

(** The copy of lines 167 to 174: a connection under a key other than
    ["id"] gets a new dict with a new list of the same items. *)
Definition copy_value (key : string) (v : value) : value :=
  if negb (String.eqb key "id") then
    match v with
    | Connection l pi => Connection l pi
    | Scalar s => Scalar s
    end
  else v.

Definition copy_project (project : node) : node :=
  Node (node_id project)
       (map (fun kv => (fst kv, copy_value (fst kv) (snd kv))) (fields project)).

(** The list yielded at lines 166 to 176. *)
Definition snapshot_of (projects : list node) (active : active_data) : snapshot :=
  omap (fun pair : nat * fetch_state =>
          (fun project => (pair.1, copy_project project)) <$> projects !! pair.1)
       active.

(** One iteration of [while active_data]: the projects and the active
    set after it, and the snapshot when one is yielded; [None] when the
    iteration raises. The [anext]s of a wave do not interfere: each reads
    its own project and its own generator, the transport answers by the
    request, and the projects are written to only once [gather] has
    returned; so the results are the same under every interleaving, and
    the semaphore, which bounds how many run at once, is modelled apart
    ([Gather]). *)
Definition wave (variables : Py.dict) (projects : list node) (active : active_data)
  : option (list node * active_data * option snapshot) :=
  let results := map (bounded_anext variables projects) active in
  match merge_results projects (zip active results) with
  | None => None
  | Some (projects', updated, next_active) =>
      Some (projects', next_active,
            if updated then Some (snapshot_of projects' next_active) else None)
  end.

(** The [while active_data] loop; one unit of fuel per wave. It gives the
    snapshots yielded, how the loop ended, and the projects as the
    caller then sees them (on [Failed]: as they were before the wave that
    raised; what that wave had merged before it raised is not told). *)
Fixpoint process_waves (variables : Py.dict) (fuel : nat) (projects : list node)
    (active : active_data) : list snapshot * status * list node :=
  match active with
  | [] => ([], Stopped, projects)
  | _ :: _ =>
      match fuel with
      | O => ([], Suspended, projects)
      | S fuel' =>
          match wave variables projects active with
          | None => ([], Failed, projects)
          | Some (projects', next_active, snap) =>
              let '(snaps, s, final) := process_waves variables fuel' projects' next_active in
              (option_list snap ++ snaps, s, final)
          end
      end
  end.

(** [list(zip(projects, field_iterators))] *)
Definition pair_up (projects : list node) (field_iterators : list fetch_state) : active_data :=
  zip (seq 0 (length projects)) field_iterators.

Definition _process_nested_fields (variables : Py.dict) (fuel : nat)
    (projects : list node) (field_iterators : list fetch_state) :=
  process_waves variables fuel projects (pair_up projects field_iterators).

(** *** [get_resource] *)

(** [RESOURCE_QUERIES], with the text of [ProjectQueries.LIST], which
    is defined outside these files, as [LIST]. *)
Definition RESOURCE_QUERIES (LIST : string) : list (string * string) :=
  [("projects", LIST)].

Fixpoint lookup_query (table : list (string * string)) (resource_type : string)
  : option string :=
  match table with
  | [] => None
  | (k, q) :: table' =>
      if String.eqb k resource_type then Some q else lookup_query table' resource_type
  end.

(** *** Chains of responses *)

(** The usable response to the top-level request with this cursor. *)
Definition response_at (variables : option Py.dict) (cursor : option string)
  : option resource_data :=
  match send_api_request (Request query (cursor_variables cursor variables)) with
  | Body None (Some d) => lookup_resource d resource_field
  | _ => None
  end.

(** The request gets no usable response: the transport raises, the body
    has errors or no data, or the data lack the resource. *)
Definition unusable (req : request) : Prop :=
  match send_api_request req with
  | Body None (Some d) => lookup_resource d resource_field = None
  | _ => True
  end.

(** [pages] are the responses met when following the cursors from
    [cursor]: each has nodes; each but the last says that more follows,
    the last that nothing does. *)
Fixpoint follows (variables : option Py.dict) (cursor : option string)
    (pages : list resource_data) : Prop :=
  match pages with
  | [] => False
  | rd :: rest =>
      response_at variables cursor = Some rd
      /\ default [] (rd_nodes rd) <> []
      /\ exists pi, rd_pageInfo rd = Some pi
           /\ match rest with
              | [] => hasNextPage pi = false
              | _ :: _ => hasNextPage pi = true /\ follows variables (endCursor pi) rest
              end
  end.


(** The generators that a stream still has to run. *)
Definition generators_left (resource : node) (st : fetch_state)
  : list (string * paginate_state) :=
  match st with
  | FNew => field_generators_of resource
  | FRunning gens => gens
  end.

(** The pairs that stay active after a wave: those whose [anext]
    returned an item, each with its iterator where the [anext] left it. *)
Definition survivors (variables : Py.dict) (projects : list node) (active : active_data)
  : active_data :=
  omap (fun pair : nat * fetch_state =>
          match bounded_anext variables projects pair with
          | (Item _ _, it') => Some (pair.1, it')
          | _ => None
          end)
       active.

End Client.

(** [get_resource]: the subscript [RESOURCE_QUERIES[resource_type]]
    raises for a type that has no query; then nothing is requested. *)
Definition get_resource (send_api_request : request -> reply) (LIST : string)
    (resource_type : string) (variables : option Py.dict) (fuel : nat) : events * status :=
  match lookup_query (RESOURCE_QUERIES LIST) resource_type with
  | None => ([], Failed)
  | Some query => _execute_paginated_query send_api_request query resource_type variables fuel
  end.

(** *** Notions used to state the properties of the merge *)




Definition is_connection_field (p : node) (field : string) : Prop :=
  exists l pi, get_field p field = Some (Connection l pi).

(** [v'] is [v] after some merges: a scalar is unchanged, a connection
    keeps its page info and its items, with items added at the end. *)
Definition value_grows (v v' : value) : Prop :=
  match v, v' with
  | Scalar s, Scalar s' => s = s'
  | Connection l pi, Connection l' pi' => pi = pi' /\ exists added, l' = l ++ added
  | _, _ => False
  end.

Definition node_grows (p p' : node) : Prop :=
  node_id p = node_id p'
  /\ Forall2 (fun kv kv' : string * value => kv.1 = kv'.1 /\ value_grows kv.2 kv'.2)
             (fields p) (fields p').

Definition grows (projects projects' : list node) : Prop :=
  Forall2 node_grows projects projects'.



(** The batch as [_execute_paginated_query] yields it, handed to the
    merger. *)
Definition first_active (projects : list node) : active_data :=
  pair_up projects (nested_field_generators projects).

(** The property as the specification words it: a project without any
    paginated field is in the first snapshot of its batch, when there is
    one. *)
Definition plain_project_in_first_snapshot (send_api_request : request -> reply)
    (query resource_field : string) (variables : Py.dict) : Prop :=
  forall fuel projects first rest s final k p,
    _process_nested_fields send_api_request query resource_field variables fuel projects
      (nested_field_generators projects) = (first :: rest, s, final) ->
    projects !! k = Some p ->
    field_generators_of p = [] ->
    k ∈ first.*1.

End GraphQL.

(** ** The semaphore of [_process_nested_fields]

    [sem = asyncio.Semaphore(50)] and, for every pair of a wave, a task
    running [async with sem: return await anext(field_iter)]. A task
    waits to enter the [async with], is inside it while its [anext] is
    pending, and has left it once the [anext] returned or raised. *)

Module Gather.

Definition SEMAPHORE_LIMIT : nat := 50.

Inductive task :=
| Waiting                 (* not yet inside [async with sem] *)
| Advancing               (* holds the semaphore, its anext is pending *)
| Resolved (ok : bool).   (* left the block: returned (true) or raised *)

(** The counter of the semaphore and the tasks of the wave. *)
Record sched := Sched { sem_value : nat; tasks : list task }.

(** What the event loop does next: task [i] enters the block, or the
    [anext] of task [i] resolves and the block is left. *)
Inductive action :=
| Acquire (i : nat)
| Release (i : nat) (ok : bool).

(** [Semaphore.acquire] returns only while the counter is positive and
    takes one from it; leaving the [async with] block, by [return] or by
    an exception, gives it back. *)
Definition perform (s : sched) (a : action) : option sched :=
  match a with
  | Acquire i =>
      match tasks s !! i, sem_value s with
      | Some Waiting, S v => Some (Sched v (<[i := Advancing]> (tasks s)))
      | _, _ => None
      end
  | Release i ok =>
      match tasks s !! i with
      | Some Advancing => Some (Sched (S (sem_value s)) (<[i := Resolved ok]> (tasks s)))
      | _ => None
      end
  end.

Fixpoint schedule (s : sched) (acts : list action) : option sched :=
  match acts with
  | [] => Some s
  | a :: acts' =>
      match perform s a with
      | Some s' => schedule s' acts'
      | None => None
      end
  end.

(** The tasks of a wave over [n] pairs, with a semaphore of [K]. *)
Definition gather (K n : nat) : sched := Sched K (replicate n Waiting).

Definition is_advancing (t : task) : bool :=
  match t with
  | Advancing => true
  | _ => false
  end.

Definition weight (t : task) : nat := if is_advancing t then 1 else 0.

(** The number of [anext] calls pending, which bounds the remote calls
    outstanding: an [anext] waits for at most one call at a time. *)
Definition in_flight (s : sched) : nat := length (filter (fun t => is_advancing t = true) (tasks s)).

Definition all_resolved (s : sched) : bool :=
  forallb (fun t => match t with Resolved _ => true | _ => false end) (tasks s).

(** The schedule that runs the tasks [from], [from+1], ... one after the
    other, each [anext] returning. *)
Definition one_by_one (from n : nat) : list action :=
  flat_map (fun i => [Acquire i; Release i true]) (seq from n).

(** The steps a task has before it: to enter the block and to leave it. *)
Definition pending (t : task) : nat :=
  match t with
  | Waiting => 2
  | Advancing => 1
  | Resolved _ => 0
  end.

Definition steps_left (s : sched) : nat := sum_list (map pending (tasks s)).

End Gather.

(** * Part II: concrete endpoints and batches *)

Module Examples.

(** ** Page-style endpoints *)

Definition page_of (r : RestClient.request) : option Z :=
  match Py.get (RestClient.rq_params r) "page" with
  | Some (Py.Int z) => Some z
  | _ => None
  end.

(** Page size 2, pages [a,b] and [c], then nothing. *)
Definition endpoint_A (r : RestClient.request) : RestClient.reply :=
  match page_of r with
  | Some 1%Z => RestClient.Body ["a"; "b"]
  | Some 2%Z => RestClient.Body ["c"]
  | _ => RestClient.Body []
  end.

(** Page size 2, pages [a,b] and [c,d], then nothing. *)
Definition endpoint_B (r : RestClient.request) : RestClient.reply :=
  match page_of r with
  | Some 1%Z => RestClient.Body ["a"; "b"]
  | Some 2%Z => RestClient.Body ["c"; "d"]
  | _ => RestClient.Body []
  end.

(** Page size 2, page [a,b], and an error on the second page. *)
Definition endpoint_down (r : RestClient.request) : RestClient.reply :=
  match page_of r with
  | Some 1%Z => RestClient.Body ["a"; "b"]
  | _ => RestClient.Raised
  end.

Definition endpoint_error_text (r : RestClient.request) : string := "502 Bad Gateway".

(** ** A cursor-style endpoint

    Two top-level pages. The first holds project 1, whose [labels] have a
    second page behind the cursor [L1], and project 2, which has no
    paginated field; the second holds project 3. *)

Definition project_1 : GraphQL.node :=
  GraphQL.Node "gid://1"
    [("name", GraphQL.Scalar "ocean");
     ("labels", GraphQL.Connection ["bug"; "ui"] (GraphQL.PageInfo true (Some "L1")))].

Definition project_2 : GraphQL.node :=
  GraphQL.Node "gid://2" [("name", GraphQL.Scalar "port")].

Definition project_3 : GraphQL.node :=
  GraphQL.Node "gid://3"
    [("name", GraphQL.Scalar "docs");
     ("labels", GraphQL.Connection [] (GraphQL.PageInfo false None))].

(** Project 1 as the re-query for its labels returns it. *)
Definition project_1_labels_page_2 : GraphQL.node :=
  GraphQL.Node "gid://1"
    [("name", GraphQL.Scalar "ocean");
     ("labels", GraphQL.Connection ["api"; "docs"] (GraphQL.PageInfo false None))].

Definition top_page (nodes : list GraphQL.node) (has_next : bool) (cursor : option string)
  : GraphQL.reply :=
  GraphQL.Body None
    (Some [("projects",
            GraphQL.ResourceData (Some nodes) (Some (GraphQL.PageInfo has_next cursor)))]).

Definition str_is (v : option Py.value) (s : string) : bool :=
  match v with
  | Some (Py.Str s') => String.eqb s' s
  | _ => false
  end.

Definition gitlab (r : GraphQL.request) : GraphQL.reply :=
  let vars := GraphQL.rq_variables r in
  if str_is (Py.get vars "labelsCursor") "L1" then
    top_page [project_1_labels_page_2; project_2] true (Some "T1")
  else if str_is (Py.get vars "cursor") "T1" then
    top_page [project_3] false None
  else
    match Py.get vars "cursor" with
    | Some Py.None_ => top_page [project_1; project_2] true (Some "T1")
    | _ => GraphQL.Raised "unknown cursor"
    end.

(** An endpoint whose top-level page says that more follows and gives no
    cursor. *)
Definition gitlab_no_cursor (r : GraphQL.request) : GraphQL.reply :=
  top_page [project_2] true None.

(** An endpoint whose second top-level page cannot be fetched. *)
Definition gitlab_down (r : GraphQL.request) : GraphQL.reply :=
  match Py.get (GraphQL.rq_variables r) "cursor" with
  | Some Py.None_ => top_page [project_2] true (Some "T1")
  | _ => GraphQL.Raised "timeout"
  end.

(** An endpoint whose response has nodes and no page info. *)
Definition gitlab_no_page_info (r : GraphQL.request) : GraphQL.reply :=
  GraphQL.Body None (Some [("projects", GraphQL.ResourceData (Some [project_2]) None)]).

(** The two top-level responses of [gitlab]. *)
Definition gitlab_page_1 : GraphQL.resource_data :=
  GraphQL.ResourceData (Some [project_1; project_2])
    (Some (GraphQL.PageInfo true (Some "T1"))).

Definition gitlab_page_2 : GraphQL.resource_data :=
  GraphQL.ResourceData (Some [project_3]) (Some (GraphQL.PageInfo false None)).

(** A project whose [members] say that more follows and give no cursor. *)
Definition project_4 : GraphQL.node :=
  GraphQL.Node "gid://4"
    [("members", GraphQL.Connection ["ana"] (GraphQL.PageInfo true None))].

Definition project_4_after_wave_1 : GraphQL.node :=
  GraphQL.Node "gid://4"
    [("members", GraphQL.Connection ["ana"; "ana"] (GraphQL.PageInfo true None))].

(** Project 1 after the first and after the second wave of the merge
    of the first batch. *)
Definition project_1_after_wave_1 : GraphQL.node :=
  GraphQL.Node "gid://1"
    [("name", GraphQL.Scalar "ocean");
     ("labels", GraphQL.Connection ["bug"; "ui"; "bug"; "ui"]
                  (GraphQL.PageInfo true (Some "L1")))].

Definition project_1_after_wave_2 : GraphQL.node :=
  GraphQL.Node "gid://1"
    [("name", GraphQL.Scalar "ocean");
     ("labels", GraphQL.Connection ["bug"; "ui"; "bug"; "ui"; "api"; "docs"]
                  (GraphQL.PageInfo true (Some "L1")))].

(** The first batch of [gitlab], as the merger gets it. *)
Definition first_batch : list GraphQL.node := [project_1; project_2].

End Examples.

(** * Part III: properties *)

(** ** Dictionaries *)

Module PyFacts.

Lemma get_set_eq d k v : Py.get (Py.set d k v) k = Some v.
Proof.
  induction d as [|[k' v'] d IH]; simpl.
  - by rewrite String.eqb_refl.
  - destruct (String.eqb k' k) eqn:E; simpl; by rewrite E.
Qed.

Lemma get_set_ne d k k' v : k <> k' -> Py.get (Py.set d k v) k' = Py.get d k'.
Proof.
  intros Hne. induction d as [|[k0 v0] d IH]; simpl.
  - by destruct (String.eqb_spec k k').
  - destruct (String.eqb_spec k0 k) as [->|Hk]; simpl.
    + by destruct (String.eqb_spec k k').
    + by destruct (String.eqb_spec k0 k').
Qed.

End PyFacts.

(** ** Traces *)

Module TraceFacts.

Lemma calls_app {Req Batch} (t1 t2 : list (event Req Batch)) :
  calls (t1 ++ t2) = calls t1 ++ calls t2.
Proof. apply omap_app. Qed.

Lemma yields_app {Req Batch} (t1 t2 : list (event Req Batch)) :
  yields (t1 ++ t2) = yields t1 ++ yields t2.
Proof. apply omap_app. Qed.

End TraceFacts.

(** ** The page/offset paginator *)

Module RestFacts.

Import RestClient.

Section Paginate.

Variable send_api_request : request -> reply.
Variable path : string.
Variable params : option Py.dict.
Variable page_size : Z.

Abbreviation page_request := (page_request path params page_size).
Abbreviation paginate_from := (paginate_from send_api_request path params page_size).
Abbreviation full_pages := (full_pages send_api_request path params page_size).
Abbreviation is_full_page := (is_full_page send_api_request path params page_size).
Abbreviation terminal := (terminal path params page_size).

(** Every request carries the page counter and the page size. *)
Lemma page_request_params page :
  Py.get (rq_params (page_request page)) "page" = Some (Py.Int page)
  /\ Py.get (rq_params (page_request page)) "per_page" = Some (Py.Int page_size).
Proof.
  split; simpl; unfold request_params.
  - apply PyFacts.get_set_eq.
  - rewrite PyFacts.get_set_ne by done. apply PyFacts.get_set_eq.
Qed.

(** A sequence that has ended went through [n] full pages and then met a
    response that is empty or short. *)
Lemma paginate_from_stopped fuel : forall page t,
  paginate_from fuel page = (t, Stopped) ->
  exists n last_response,
    (n < fuel)%nat
    /\ (forall i, (i < n)%nat -> is_full_page (page + Z.of_nat i))
    /\ send_api_request (page_request (page + Z.of_nat n)) = Body last_response
    /\ (last_response = [] \/ (Z.of_nat (length last_response) < page_size)%Z)
    /\ t = full_pages n page ++ terminal (page + Z.of_nat n) last_response.
Proof.
  induction fuel as [|fuel IH]; intros page t; simpl; [done|].
  destruct (send_api_request (page_request page)) as [|response] eqn:Hsend; [done|].
  destruct response as [|r response].
  - intros [= <-]. exists 0%nat, []. rewrite Z.add_0_r.
    split_and!; [lia|intros; lia|done|by left|done].
  - destruct (Z.ltb_spec (Z.of_nat (length (r :: response))) page_size) as [Hlt|Hge].
    + intros [= <-]. exists 0%nat, (r :: response). rewrite Z.add_0_r.
      split_and!; [lia|intros; lia|done|by right|done].
    + destruct (paginate_from fuel (page + 1)%Z) as [t' s'] eqn:Hrec.
      intros [= <- ->].
      destruct (IH _ _ Hrec) as (n & last_response & Hn & Hfull & Hlast & Hshort & ->).
      exists (S n), last_response.
      replace (page + Z.of_nat (S n))%Z with (page + 1 + Z.of_nat n)%Z by lia.
      split_and!; [lia| |done|done|].
      * intros [|i] Hi.
        -- rewrite Z.add_0_r. exists (r :: response). by split_and!.
        -- replace (page + Z.of_nat (S i))%Z with (page + 1 + Z.of_nat i)%Z by lia.
           apply Hfull. lia.
      * simpl. by rewrite Hsend.
Qed.

(** Conversely, [n] full pages followed by an empty or short response end
    the sequence there, whatever fuel is left. *)
Lemma paginate_from_reaches n : forall fuel page last_response,
  (n < fuel)%nat ->
  (forall i, (i < n)%nat -> is_full_page (page + Z.of_nat i)) ->
  send_api_request (page_request (page + Z.of_nat n)) = Body last_response ->
  (last_response = [] \/ (Z.of_nat (length last_response) < page_size)%Z) ->
  paginate_from fuel page
  = (full_pages n page ++ terminal (page + Z.of_nat n) last_response, Stopped).
Proof.
  induction n as [|n IH]; intros [|fuel] page last_response Hfuel Hfull Hlast Hshort;
    try lia; simpl.
  - rewrite Z.add_0_r in *. rewrite Hlast.
    destruct last_response as [|r l]; [done|].
    destruct Hshort as [|Hlt]; [done|].
    by destruct (Z.ltb_spec (Z.of_nat (length (r :: l))) page_size); [|lia].
  - destruct (Hfull 0%nat ltac:(lia)) as (response & Hsend & Hne & Hlen).
    rewrite Z.add_0_r in Hsend. rewrite Hsend.
    destruct response as [|r l]; [done|].
    destruct (Z.ltb_spec (Z.of_nat (length (r :: l))) page_size); [lia|].
    rewrite (IH fuel (page + 1)%Z last_response); [|lia| | |done].
    + by replace (page + 1 + Z.of_nat n)%Z with (page + Z.of_nat (S n))%Z by lia.
    + intros i Hi. replace (page + 1 + Z.of_nat i)%Z with (page + Z.of_nat (S i))%Z by lia.
      apply Hfull. lia.
    + by replace (page + 1 + Z.of_nat n)%Z with (page + Z.of_nat (S n))%Z by lia.
Qed.

(** The calls of [n] full pages are the requests for [n] consecutive
    pages, and their batches are the responses. *)
Lemma full_pages_calls n : forall page,
  (forall i, (i < n)%nat -> is_full_page (page + Z.of_nat i)) ->
  calls (full_pages n page)
  = map (fun i => page_request (page + Z.of_nat i)) (seq 0 n)
  /\ length (yields (full_pages n page)) = n
  /\ Forall (fun b => (page_size <= Z.of_nat (length b))%Z) (yields (full_pages n page)).
Proof.
  induction n as [|n IH]; intros page Hfull; simpl; [done|].
  destruct (Hfull 0%nat ltac:(lia)) as (response & Hsend & Hne & Hlen).
  rewrite Z.add_0_r in Hsend. rewrite Hsend. simpl.
  destruct (IH (page + 1)%Z) as (Hc & Hy & Hall).
  { intros i Hi. replace (page + 1 + Z.of_nat i)%Z with (page + Z.of_nat (S i))%Z by lia.
    apply Hfull. lia. }
  split_and!.
  - rewrite Z.add_0_r. f_equal. rewrite Hc, <- seq_shift, map_map.
    apply map_ext. intros i. f_equal. lia.
  - by rewrite Hy.
  - by constructor.
Qed.

(** C5, as the code has it. A page-style sequence that has ended went
    through [n] iterations that each yielded a batch of at least
    [page_size] items, then through one last iteration whose response is
    empty, and is not yielded, or is shorter than the page size, and is
    the last batch yielded. Nothing is requested or yielded after it, and
    the calls are the requests for the pages 1 to n+1, one per
    iteration. *)
Theorem page_sequence_ends_at_short_response fuel t :
  _make_paginated_request send_api_request path params page_size fuel = (t, Stopped) ->
  exists n last_response,
    (n < fuel)%nat
    /\ send_api_request (page_request (1 + Z.of_nat n)) = Body last_response
    /\ (last_response = [] \/ (Z.of_nat (length last_response) < page_size)%Z)
    /\ t = full_pages n 1 ++ terminal (1 + Z.of_nat n) last_response
    /\ calls t = map (fun i => page_request (1 + Z.of_nat i)) (seq 0 (S n))
    /\ yields t = yields (full_pages n 1)
                  ++ match last_response with [] => [] | _ :: _ => [last_response] end
    /\ length (yields (full_pages n 1)) = n
    /\ Forall (fun b => (page_size <= Z.of_nat (length b))%Z) (yields (full_pages n 1)).
Proof.
  intros Hrun. unfold _make_paginated_request in Hrun.
  destruct (paginate_from_stopped _ _ _ Hrun)
    as (n & last_response & Hn & Hfull & Hlast & Hshort & ->).
  destruct (full_pages_calls n 1 Hfull) as (Hc & Hy & Hall).
  exists n, last_response. split_and!; try done.
  - rewrite TraceFacts.calls_app, Hc, seq_S, map_app. simpl. by destruct last_response.
  - rewrite TraceFacts.yields_app. f_equal. by destruct last_response.
Qed.

End Paginate.

(** Scenario A of the specification: a page size of 2 and the pages
    [a,b] and [c]. *)
Lemma page_sequence_scenario_A :
  exists n last_response,
    (n < 5)%nat
    /\ Examples.endpoint_A (page_request "labels" None 2 (1 + Z.of_nat n)) = Body last_response
    /\ (last_response = [] \/ (Z.of_nat (length last_response) < 2)%Z)
    /\ (_make_paginated_request Examples.endpoint_A "labels" None 2 5).1
       = full_pages Examples.endpoint_A "labels" None 2 n 1
         ++ terminal "labels" None 2 (1 + Z.of_nat n) last_response
    /\ calls (_make_paginated_request Examples.endpoint_A "labels" None 2 5).1
       = map (fun i => page_request "labels" None 2 (1 + Z.of_nat i)) (seq 0 (S n))
    /\ yields (_make_paginated_request Examples.endpoint_A "labels" None 2 5).1
       = yields (full_pages Examples.endpoint_A "labels" None 2 n 1)
         ++ match last_response with [] => [] | _ :: _ => [last_response] end
    /\ length (yields (full_pages Examples.endpoint_A "labels" None 2 n 1)) = n
    /\ Forall (fun b => (2 <= Z.of_nat (length b))%Z)
              (yields (full_pages Examples.endpoint_A "labels" None 2 n 1)).
Proof.
  apply (page_sequence_ends_at_short_response Examples.endpoint_A "labels" None 2 5).
  reflexivity.
Defined.

(** What the two scenarios of the specification yield. *)
Example scenario_A_yields :
  yields (_make_paginated_request Examples.endpoint_A "labels" None 2 5).1
  = [["a"; "b"]; ["c"]].
Proof. reflexivity. Qed.

Example scenario_B_yields :
  _make_paginated_request Examples.endpoint_B "labels" None 2 5
  = ([Call (page_request "labels" None 2 1); Yield ["a"; "b"];
      Call (page_request "labels" None 2 2); Yield ["c"; "d"];
      Call (page_request "labels" None 2 3)], Stopped).
Proof. reflexivity. Qed.

(** C5 as worded fails on scenario B: the sequence ends on the empty
    third page, and the last batch yielded, [c,d], has the full page
    size. *)
Lemma last_batch_of_scenario_B_is_full :
  ~ last_batch_is_short Examples.endpoint_B "labels" None 2.
Proof.
  intros H. destruct (H 5%nat _ eq_refl) as [Hnil|(b & Hb & Hlt)].
  - discriminate Hnil.
  - vm_compute in Hb. injection Hb as <-. simpl in Hlt. lia.
Qed.

End RestFacts.

(** ** The cursor paginator and the nested streams *)

Module GraphQLFacts.

Import GraphQL.



Section Client.

Variable send_api_request : request -> reply.
Variable query : string.
Variable resource_field : string.

Abbreviation _execute_query := (_execute_query send_api_request query).
Abbreviation paginate_anext := (paginate_anext send_api_request query resource_field).
Abbreviation fetch_resume := (fetch_resume send_api_request query resource_field).
Abbreviation fetch_anext := (fetch_anext send_api_request query resource_field).
Abbreviation execute_paginated_from :=
  (execute_paginated_from send_api_request query resource_field).
Abbreviation _execute_paginated_query :=
  (_execute_paginated_query send_api_request query resource_field).

(** *** [_execute_query] *)

(** Every execution is one remote call, the first event. *)
Lemma execute_query_calls variables :
  calls (_execute_query variables).1 = [Request query variables].
Proof.
  unfold GraphQL._execute_query.
  by destruct (send_api_request _) as [|[] []].
Qed.

Lemma execute_query_head variables :
  exists logs, (_execute_query variables).1 = Call (Request query variables) :: logs
    /\ calls logs = [] /\ yields logs = [].
Proof.
  unfold GraphQL._execute_query.
  destruct (send_api_request _) as [|[] []]; simpl; eauto.
Qed.

Lemma execute_query_Some variables d :
  (_execute_query variables).2 = Some d <->
  send_api_request (Request query variables) = Body None (Some d).
Proof.
  unfold GraphQL._execute_query.
  destruct (send_api_request _) as [|[] []]; simpl; naive_solver.
Qed.

Lemma execute_query_ok variables d :
  send_api_request (Request query variables) = Body None (Some d) ->
  _execute_query variables = ([Call (Request query variables)], Some d).
Proof. unfold GraphQL._execute_query. by intros ->. Qed.

(** *** [_execute_paginated_query] *)

(** One iteration that yields and goes on: the rest of the trace is the
    loop entered with the cursor of the response, absent or not. *)
Lemma execute_from_continues variables fuel cursor d rd pi :
  send_api_request (Request query (cursor_variables cursor variables)) = Body None (Some d) ->
  lookup_resource d resource_field = Some rd ->
  default [] (rd_nodes rd) <> [] ->
  rd_pageInfo rd = Some pi ->
  hasNextPage pi = true ->
  execute_paginated_from variables (S fuel) cursor
  = (Call (Request query (cursor_variables cursor variables)) :: Yield (batch_of rd)
       :: (execute_paginated_from variables fuel (endCursor pi)).1,
     (execute_paginated_from variables fuel (endCursor pi)).2).
Proof.
  intros Hsend Hrd Hnodes Hpi Hnext. simpl.
  rewrite (execute_query_ok _ _ Hsend), Hrd. unfold batch_of.
  destruct (default [] (rd_nodes rd)) as [|n ns]; [done|].
  rewrite Hpi, Hnext. simpl.
  by destruct (execute_paginated_from variables fuel (endCursor pi)).
Qed.

Lemma execute_from_terminal variables fuel : forall cursor t s,
  execute_paginated_from variables fuel cursor = (t, s) ->
  forall pre req rest d rd,
    t = pre ++ Call req :: rest ->
    send_api_request req = Body None (Some d) ->
    lookup_resource d resource_field = Some rd ->
    (default [] (rd_nodes rd) = [] -> rest = [] /\ s = Stopped)
    /\ (forall pi, default [] (rd_nodes rd) <> [] -> rd_pageInfo rd = Some pi ->
          hasNextPage pi = false -> rest = [Yield (batch_of rd)] /\ s = Stopped).
Proof.
  induction fuel as [|fuel IH]; intros cursor t s; simpl.
  { intros [= <- <-] [|e pre] req rest d rd Ht; discriminate Ht. }
  set (req0 := Request query (cursor_variables cursor variables)).
  unfold GraphQL._execute_query. fold req0.
  destruct (send_api_request req0) as [msg|[e|] [d0|]] eqn:Hsend0;
    try (intros [= <- <-] [|e1 [|e2 [|e3 pre]]] req rest d rd Ht Hsend Hrd;
         simplify_eq/=; try (by destruct pre); congruence).
  destruct (lookup_resource d0 resource_field) as [rd0|] eqn:Hrd0;
    [|intros [= <- <-] [|e1 pre] req rest d rd Ht Hsend Hrd;
      simplify_eq/=; [congruence|by destruct pre]].
  destruct (default [] (rd_nodes rd0)) as [|n ns] eqn:Hnodes.
  { intros [= <- <-] [|e1 pre] req rest d rd Ht Hsend Hrd;
      simplify_eq/=; [|by destruct pre].
    assert (rd = rd0) as -> by congruence. split; [done|]. intros pi Hne. congruence. }
  destruct (rd_pageInfo rd0) as [pi0|] eqn:Hpi0.
  2:{ intros [= <- <-] [|e1 [|e2 pre]] req rest d rd Ht Hsend Hrd;
        simplify_eq/=; try (by destruct pre).
      assert (rd = rd0) as -> by congruence.
      split; [congruence|]. intros pi _ Hpi. congruence. }
  destruct (hasNextPage pi0) eqn:Hnext; simpl.
  - destruct (execute_paginated_from variables fuel (endCursor pi0)) as [t' s'] eqn:Hrec.
    intros [= <- <-] [|e1 [|e2 pre]] req rest d rd Ht Hsend Hrd; simplify_eq/=.
    + assert (rd = rd0) as -> by congruence.
      split; [congruence|]. intros pi _ Hpi. congruence.
    + by eapply IH.
  - intros [= <- <-] [|e1 [|e2 pre]] req rest d rd Ht Hsend Hrd;
      simplify_eq/=; try (by destruct pre).
    assert (rd = rd0) as -> by congruence.
    split; [congruence|]. intros pi _ _ _. unfold batch_of. by rewrite Hnodes.
Qed.

(** C6. Wherever a cursor-style sequence receives a response whose item
    list is empty, the trace ends with that call: no batch is yielded for
    it and nothing is called afterwards. Wherever it receives a response
    with items and [hasNextPage] false, the trace ends with the batch of
    that response: nothing is called or yielded afterwards. In both
    cases the sequence has stopped. *)
Theorem cursor_sequence_ends_at_terminal_response variables fuel t s pre req rest d rd :
  _execute_paginated_query variables fuel = (t, s) ->
  t = pre ++ Call req :: rest ->
  send_api_request req = Body None (Some d) ->
  lookup_resource d resource_field = Some rd ->
  (default [] (rd_nodes rd) = [] -> rest = [] /\ s = Stopped)
  /\ (forall pi, default [] (rd_nodes rd) <> [] -> rd_pageInfo rd = Some pi ->
        hasNextPage pi = false -> rest = [Yield (batch_of rd)] /\ s = Stopped).
Proof. intros Hrun. by eapply execute_from_terminal. Qed.

(** Each iteration of the top-level loop performs one remote call. *)
Lemma execute_from_calls variables fuel : forall cursor,
  (length (calls (execute_paginated_from variables fuel cursor).1) <= fuel)%nat.
Proof.
  induction fuel as [|fuel IH]; intros cursor; simpl; [done|].
  destruct (execute_query_head (cursor_variables cursor variables))
    as (logs & Hev & Hc & Hy).
  destruct (GraphQL._execute_query _ _ _) as [ev [d|]]; simpl in *; subst ev.
  2:{ simpl. rewrite Hc. simpl. lia. }
  destruct (lookup_resource d resource_field) as [rd|]; simpl.
  2:{ rewrite Hc. simpl. lia. }
  destruct (default [] (rd_nodes rd)); simpl.
  { rewrite Hc. simpl. lia. }
  assert (Hone : forall b : batch, calls (logs ++ [Yield b]) = ([] : list request)).
  { intros b. rewrite TraceFacts.calls_app, Hc. done. }
  destruct (rd_pageInfo rd) as [pi|]; simpl.
  2:{ rewrite Hone. simpl. lia. }
  destruct (hasNextPage pi); simpl.
  2:{ rewrite Hone. simpl. lia. }
  specialize (IH (endCursor pi)).
  destruct (execute_paginated_from variables fuel (endCursor pi)) as [t' s']. simpl in *.
  rewrite TraceFacts.calls_app, Hone. simpl. lia.
Qed.

(** *** [_paginate_field] *)


(** C8. A nested-field stream resumed after a page that says more
    follows and gives no cursor logs the condition and stops: no call,
    no exception, and from then on every [anext] stops at once. *)
Theorem nested_stream_stops_without_cursor variables parent field_name parent_id pi :
  hasNextPage pi = true ->
  endCursor pi = None ->
  paginate_anext variables parent field_name (PYielded parent_id pi)
  = ([LogError (missing_cursor field_name parent_id)], StopAsyncIteration, PClosed)
  /\ forall parent', paginate_anext variables parent' field_name PClosed
                     = ([], StopAsyncIteration, PClosed).
Proof. intros Hnext Hcur. simpl. by rewrite Hnext, Hcur. Qed.

(** An [anext] of a nested-field stream performs at most one call. *)
Lemma paginate_anext_calls variables parent field_name st :
  (length (calls (paginate_anext variables parent field_name st).1.1) <= 1)%nat.
Proof.
  destruct st as [|parent_id pi|]; simpl.
  - destruct (get_field parent field_name) as [[]|]; simpl; lia.
  - destruct (hasNextPage pi); [|simpl; lia].
    destruct (endCursor pi) as [cursor|]; [|simpl; lia].
    pose proof (execute_query_calls (field_variables field_name cursor variables)) as Hcalls.
    destruct (_execute_query (field_variables field_name cursor variables)) as [ev [d|]];
      simpl in Hcalls.
    + destruct (field_of_response resource_field d parent_id field_name) as [[l pi']|];
        simpl; by rewrite Hcalls.
    + simpl. by rewrite Hcalls.
  - simpl. lia.
Qed.

(** An [anext] of [_paginate_field] that reports exhaustion performed
    no call. *)
Lemma paginate_anext_stop_calls variables parent field_name st ev st' :
  paginate_anext variables parent field_name st = (ev, StopAsyncIteration, st') ->
  calls ev = [].
Proof.
  destruct st as [|parent_id pi|]; simpl.
  - by destruct (get_field parent field_name) as [[]|].
  - destruct (hasNextPage pi); [|by intros [= <- _]].
    destruct (endCursor pi) as [cursor|]; [|by intros [= <- _]].
    destruct (_execute_query (field_variables field_name cursor variables)) as [ev0 [d|]];
      [|done].
    by destruct (field_of_response resource_field d parent_id field_name) as [[l pi']|].
  - by intros [= <- _].
Qed.

(** An [anext] of the stream the merger holds performs at most one
    call, whichever generators it runs through. *)
Lemma fetch_resume_calls variables resource gens :
  (length (calls (fetch_resume variables resource gens).1.1) <= 1)%nat.
Proof.
  induction gens as [|[field g] rest IH]; simpl; [lia|].
  pose proof (paginate_anext_calls variables resource field g) as Hone.
  destruct (paginate_anext variables resource field g) as [[ev r] g'] eqn:Hpa.
  destruct r as [f page| |]; simpl in *; try done.
  destruct (fetch_resume variables resource rest) as [[ev' r'] st']. simpl in *.
  rewrite TraceFacts.calls_app, (paginate_anext_stop_calls _ _ _ _ _ _ Hpa). done.
Qed.

Lemma fetch_anext_calls variables resource st :
  (length (calls (fetch_anext variables resource st).1.1) <= 1)%nat.
Proof. destruct st; apply fetch_resume_calls. Qed.

End Client.

(** The cursor-style endpoint of the examples: the second response has
    [hasNextPage] false, and its batch ends the trace. *)
Lemma cursor_sequence_on_gitlab :
  (default [] (rd_nodes (ResourceData (Some [Examples.project_3]) (Some (PageInfo false None)))) = []
   -> [Yield (batch_of (ResourceData (Some [Examples.project_3]) (Some (PageInfo false None))))]
      = ([] : events) /\ Stopped = Stopped)
  /\ (forall pi,
        default [] (rd_nodes (ResourceData (Some [Examples.project_3]) (Some (PageInfo false None)))) <> [] ->
        rd_pageInfo (ResourceData (Some [Examples.project_3]) (Some (PageInfo false None))) = Some pi ->
        hasNextPage pi = false ->
        ([Yield ([Examples.project_3], [FNew])] : events)
        = [Yield (batch_of (ResourceData (Some [Examples.project_3]) (Some (PageInfo false None))))]
        /\ Stopped = Stopped).
Proof.
  apply (cursor_sequence_ends_at_terminal_response Examples.gitlab "Q" "projects" None 5
           (_execute_paginated_query Examples.gitlab "Q" "projects" None 5).1
           Stopped
           [Call (Request "Q" (cursor_variables None None));
            Yield ([Examples.project_1; Examples.project_2], [FNew; FNew])]
           (Request "Q" (cursor_variables (Some "T1") None))
           [Yield ([Examples.project_3], [FNew])]
           [("projects", ResourceData (Some [Examples.project_3]) (Some (PageInfo false None)))]);
    reflexivity.
Defined.

Example gitlab_top_level_trace :
  _execute_paginated_query Examples.gitlab "Q" "projects" None 5
  = ([Call (Request "Q" [("cursor", Py.None_)]);
      Yield ([Examples.project_1; Examples.project_2], [FNew; FNew]);
      Call (Request "Q" [("cursor", Py.Str "T1")]);
      Yield ([Examples.project_3], [FNew])], Stopped).
Proof. reflexivity. Qed.

(** C4 at the top level. The endpoint answers with [hasNextPage] true and
    no [endCursor]: the loop logs nothing and does not stop; every
    iteration repeats the first request, with the cursor absent. *)
Theorem top_level_repeats_request_without_cursor fuel :
  _execute_paginated_query Examples.gitlab_no_cursor "Q" "projects" None fuel
  = (concat (replicate fuel
       [Call (Request "Q" [("cursor", Py.None_)]);
        Yield ([Examples.project_2], [FNew])]),
     Suspended)
  /\ errors_logged
       (_execute_paginated_query Examples.gitlab_no_cursor "Q" "projects" None fuel).1 = [].
Proof.
  assert (Hrun : _execute_paginated_query Examples.gitlab_no_cursor "Q" "projects" None fuel
                 = (concat (replicate fuel
                      [Call (Request "Q" [("cursor", Py.None_)]);
                       Yield ([Examples.project_2], [FNew])]),
                    Suspended)).
  { unfold GraphQL._execute_paginated_query.
    induction fuel as [|fuel IH]; [done|].
    cbn [replicate concat].
    rewrite (execute_from_continues Examples.gitlab_no_cursor "Q" "projects" None fuel None
               [("projects",
                 ResourceData (Some [Examples.project_2]) (Some (PageInfo true None)))]
               (ResourceData (Some [Examples.project_2]) (Some (PageInfo true None)))
               (PageInfo true None)); try done.
    cbn [endCursor]. by rewrite IH. }
  split; [done|]. rewrite Hrun. cbn [fst]. clear Hrun.
  induction fuel as [|fuel IH]; [done|]. cbn [replicate concat]. exact IH.
Qed.

(** The nested stream of the labels of project 1, after its first page. *)
Lemma nested_stream_without_cursor_example :
  paginate_anext Examples.gitlab "Q" "projects" [] Examples.project_1 "labels"
    (PYielded "gid://1" (PageInfo true None))
  = ([LogError "Missing cursor for labels pagination on gid://1"], StopAsyncIteration, PClosed)
  /\ forall parent', paginate_anext Examples.gitlab "Q" "projects" [] parent' "labels" PClosed
                     = ([], StopAsyncIteration, PClosed).
Proof.
  apply (nested_stream_stops_without_cursor Examples.gitlab "Q" "projects" []
           Examples.project_1 "labels" "gid://1" (PageInfo true None)); reflexivity.
Defined.

(** The three steps of the labels of project 1: the known page, one
    call for the second page, and the end. *)
Example labels_stream_of_project_1 :
  paginate_anext Examples.gitlab "Q" "projects" [] Examples.project_1 "labels" PNew
  = ([], Item "labels" Known, PYielded "gid://1" (PageInfo true (Some "L1")))
  /\ paginate_anext Examples.gitlab "Q" "projects" [] Examples.project_1 "labels"
       (PYielded "gid://1" (PageInfo true (Some "L1")))
     = ([Call (Request "Q" [("labelsCursor", Py.Str "L1")])],
        Item "labels" (Fetched ["api"; "docs"]),
        PYielded "gid://1" (PageInfo false None))
  /\ paginate_anext Examples.gitlab "Q" "projects" [] Examples.project_1 "labels"
       (PYielded "gid://1" (PageInfo false None))
     = ([], StopAsyncIteration, PClosed).
Proof. by split_and!. Qed.

End GraphQLFacts.

(** ** The merge of nested pages *)

Module MergerFacts.

Import GraphQL.

Local Arguments extend : simpl never.
Local Arguments page_items : simpl never.

(** *** Growth of values, nodes and batches *)

Lemma value_grows_refl v : value_grows v v.
Proof. destruct v; simpl; [done|]. split; [done|]. exists []. by rewrite app_nil_r. Qed.

Lemma value_grows_trans v1 v2 v3 :
  value_grows v1 v2 -> value_grows v2 v3 -> value_grows v1 v3.
Proof.
  destruct v1, v2, v3; simpl; try done; try congruence.
  intros [-> [a1 ->]] [-> [a2 ->]]. split; [done|].
  exists (a1 ++ a2). by rewrite app_assoc.
Qed.

Lemma node_grows_refl p : node_grows p p.
Proof.
  split; [done|]. induction (fields p) as [|kv fs IH]; constructor; [|done].
  split; [done|apply value_grows_refl].
Qed.

Lemma node_grows_trans p1 p2 p3 :
  node_grows p1 p2 -> node_grows p2 p3 -> node_grows p1 p3.
Proof.
  intros [Hid1 H1] [Hid2 H2]. split; [congruence|].
  revert H2. generalize (fields p3). induction H1 as [|kv1 kv2 fs1 fs2 [Hk Hv] _ IH];
    intros fs3 H2; inversion H2 as [|? kv3 ? fs3' [Hk' Hv'] H2']; subst; constructor.
  - split; [congruence|]. by eapply value_grows_trans.
  - by apply IH.
Qed.

Lemma grows_refl projects : grows projects projects.
Proof. induction projects; constructor; [apply node_grows_refl|done]. Qed.

Lemma grows_trans ps1 ps2 ps3 : grows ps1 ps2 -> grows ps2 ps3 -> grows ps1 ps3.
Proof.
  intros H1. revert ps3. induction H1 as [|p1 p2 l1 l2 Hp _ IH];
    intros ps3 H2; inversion H2; subst; constructor.
  - by eapply node_grows_trans.
  - by apply IH.
Qed.

Lemma grows_length projects projects' :
  grows projects projects' -> length projects = length projects'.
Proof. apply Forall2_length. Qed.

Lemma grows_lookup projects projects' k p :
  grows projects projects' -> projects !! k = Some p ->
  exists p', projects' !! k = Some p' /\ node_grows p p'.
Proof. intros H Hk. by eapply Forall2_lookup_l. Qed.

Lemma grows_lookup_r projects projects' k p' :
  grows projects projects' -> projects' !! k = Some p' ->
  exists p, projects !! k = Some p /\ node_grows p p'.
Proof. intros H Hk. by eapply Forall2_lookup_r. Qed.

Lemma grows_insert projects k p p' :
  projects !! k = Some p -> node_grows p p' -> grows projects (<[k := p']> projects).
Proof.
  intros Hk Hp. rewrite <- (list_insert_id projects k p Hk) at 1.
  apply Forall2_insert; [apply grows_refl|done].
Qed.

Lemma lookup_field_grows fs fs' field :
  Forall2 (fun kv kv' : string * value => kv.1 = kv'.1 /\ value_grows kv.2 kv'.2) fs fs' ->
  match lookup_field fs field with
  | Some v => exists v', lookup_field fs' field = Some v' /\ value_grows v v'
  | None => lookup_field fs' field = None
  end.
Proof.
  induction 1 as [|[k v] [k' v'] fs fs' [Hk Hv] _ IH]; simpl in *; [done|]. subst k'.
  destruct (String.eqb k field); [eauto|done].
Qed.

(** A connection of a node is, in every later state of the node, the
    same connection with items added at its end. *)
Lemma get_field_grows p p' field l pi :
  node_grows p p' -> get_field p field = Some (Connection l pi) ->
  exists added, get_field p' field = Some (Connection (l ++ added) pi).
Proof.
  intros [_ H] Hf. pose proof (lookup_field_grows _ _ field H) as Hl.
  unfold get_field in *. rewrite Hf in Hl. destruct Hl as ([s|l' pi'] & Hl & Hv); [done|].
  destruct Hv as [-> [added ->]]. eauto.
Qed.



(** *** [extend] *)

Lemma store_field_grows fs field l pi new :
  lookup_field fs field = Some (Connection l pi) ->
  Forall2 (fun kv kv' : string * value => kv.1 = kv'.1 /\ value_grows kv.2 kv'.2)
          fs (store_field fs field (Connection (l ++ new) pi))
  /\ lookup_field (store_field fs field (Connection (l ++ new) pi)) field
     = Some (Connection (l ++ new) pi).
Proof.
  induction fs as [|[k v] fs IH]; simpl; [done|].
  destruct (String.eqb k field) eqn:Hk.
  - intros [= ->]. simpl. rewrite Hk. split; [|done]. constructor.
    + split; [done|]. simpl. eauto.
    + clear. induction fs; constructor; [|done]. split; [done|apply value_grows_refl].
  - intros Hf. destruct (IH Hf) as [Hg Hl]. simpl. rewrite Hk. split; [|done].
    constructor; [|done]. split; [done|apply value_grows_refl].
Qed.

(** The merge of line 160 puts the new items after the items the field
    holds, and changes nothing else. *)
Lemma extend_spec p field new p' :
  extend p field new = Some p' ->
  exists l pi, get_field p field = Some (Connection l pi)
    /\ get_field p' field = Some (Connection (l ++ new) pi)
    /\ node_grows p p'.
Proof.
  unfold extend. destruct (get_field p field) as [[s|l pi]|] eqn:Hf; try done.
  intros [= <-]. exists l, pi. destruct (store_field_grows _ _ _ _ new Hf) as [Hg Hl].
  split_and!; [done|done|]. by split.
Qed.


Lemma copy_project_id p : copy_project p = p.
Proof.
  destruct p as [i fs]. unfold copy_project. simpl. f_equal.
  induction fs as [|[k v] fs IH]; simpl; [done|]. rewrite IH. f_equal.
  unfold copy_value. simpl. by destruct (negb _), v.
Qed.

Section Merge.

Variable send_api_request : request -> reply.
Variable query : string.
Variable resource_field : string.
Variable variables : Py.dict.

Abbreviation paginate_anext :=
  (paginate_anext send_api_request query resource_field variables).
Abbreviation fetch_resume := (fetch_resume send_api_request query resource_field variables).
Abbreviation fetch_anext := (fetch_anext send_api_request query resource_field variables).
Abbreviation bounded_anext :=
  (bounded_anext send_api_request query resource_field variables).
Abbreviation survivors := (survivors send_api_request query resource_field variables).
Abbreviation wave := (wave send_api_request query resource_field variables).
Abbreviation process_waves :=
  (process_waves send_api_request query resource_field variables).
Abbreviation _process_nested_fields :=
  (_process_nested_fields send_api_request query resource_field variables).

(** *** What an [anext] that returns an item tells *)





(** *** The loop over the results *)

Lemma merge_results_grows todo : forall cur projects' updated next_active,
  merge_results cur todo = Some (projects', updated, next_active) ->
  grows cur projects'.
Proof.
  induction todo as [|[[k it] [r it']] todo IH]; intros cur projects' updated next_active;
    simpl.
  { intros [= <- <- <-]. apply grows_refl. }
  destruct r as [f page| |]; [|by apply IH|by apply IH].
  destruct (cur !! k) as [project|] eqn:Hk; [|done].
  destruct (page_items project f page) as [[|x new]|]; [| |done].
  - destruct (merge_results cur todo) as [[[ps u] n]|] eqn:Hrec; [|done].
    intros [= <- <- <-]. by eapply IH.
  - destruct (extend project f (x :: new)) as [project'|] eqn:Hext; [|done].
    destruct (merge_results (<[k:=project']> cur) todo) as [[[ps u] n]|] eqn:Hrec; [|done].
    intros [= <- <- <-].
    destruct (extend_spec _ _ _ _ Hext) as (l & pi & _ & _ & Hg).
    eapply grows_trans; [by eapply grows_insert|by eapply IH].
Qed.

Lemma merge_results_next todo : forall cur projects' updated next_active,
  merge_results cur todo = Some (projects', updated, next_active) ->
  next_active
  = omap (fun e : (nat * fetch_state) * (anext_result * fetch_state) =>
            match e.2.1 with
            | Item _ _ => Some (e.1.1, e.2.2)
            | _ => None
            end) todo.
Proof.
  induction todo as [|[[k it] [r it']] todo IH]; intros cur projects' updated next_active;
    simpl.
  { by intros [= <- <- <-]. }
  destruct r as [f page| |]; [|by apply IH|by apply IH].
  destruct (cur !! k) as [project|] eqn:Hk; [|done].
  destruct (page_items project f page) as [[|x new]|]; [| |done].
  - destruct (merge_results cur todo) as [[[ps u] n]|] eqn:Hrec; [|done].
    intros [= <- <- <-]. f_equal. by eapply IH.
  - destruct (extend project f (x :: new)) as [project'|] eqn:Hext; [|done].
    destruct (merge_results (<[k:=project']> cur) todo) as [[[ps u] n]|] eqn:Hrec; [|done].
    intros [= <- <- <-]. f_equal. by eapply IH.
Qed.

(** A project whose pair does not stay active is not written to. *)
Lemma merge_results_untouched todo : forall cur projects' updated next_active j,
  merge_results cur todo = Some (projects', updated, next_active) ->
  j ∉ next_active.*1 ->
  projects' !! j = cur !! j.
Proof.
  induction todo as [|[[k it] [r it']] todo IH];
    intros cur projects' updated next_active j; simpl.
  { by intros [= <- <- <-]. }
  destruct r as [f page| |]; [|by apply IH|by apply IH].
  destruct (cur !! k) as [project|] eqn:Hk; [|done].
  destruct (page_items project f page) as [[|x new]|]; [| |done].
  - destruct (merge_results cur todo) as [[[ps u] n]|] eqn:Hrec; [|done].
    intros [= <- <- <-] Hj. simpl in Hj. apply not_elem_of_cons in Hj as [_ Hj].
    by eapply IH.
  - destruct (extend project f (x :: new)) as [project'|] eqn:Hext; [|done].
    destruct (merge_results (<[k:=project']> cur) todo) as [[[ps u] n]|] eqn:Hrec; [|done].
    intros [= <- <- <-] Hj. simpl in Hj. apply not_elem_of_cons in Hj as [Hne Hj].
    rewrite (IH _ _ _ _ _ Hrec Hj). by apply list_lookup_insert_ne.
Qed.


(** *** One wave *)

Lemma zip_map_self {A B} (g : A -> B) (l : list A) :
  zip l (map g l) = map (fun x => (x, g x)) l.
Proof. induction l as [|x l IH]; simpl; [done|]. by rewrite IH. Qed.

Lemma wave_Some projects active projects' next_active snap :
  wave projects active = Some (projects', next_active, snap) ->
  exists updated,
    merge_results projects (map (fun pair => (pair, bounded_anext projects pair)) active)
    = Some (projects', updated, next_active)
    /\ snap = (if updated then Some (snapshot_of projects' next_active) else None).
Proof.
  unfold GraphQL.wave. rewrite zip_map_self.
  destruct (merge_results _ _) as [[[ps u] n]|]; [|done].
  intros [= <- <- <-]. eauto.
Qed.

Lemma wave_grows projects active projects' next_active snap :
  wave projects active = Some (projects', next_active, snap) -> grows projects projects'.
Proof. intros (u & Hm & _)%wave_Some. by eapply merge_results_grows. Qed.

Lemma wave_next projects active projects' next_active snap :
  wave projects active = Some (projects', next_active, snap) ->
  next_active = survivors projects active.
Proof.
  intros (u & Hm & _)%wave_Some. rewrite (merge_results_next _ _ _ _ _ Hm).
  unfold GraphQL.survivors. clear. induction active as [|pair active IH]; [done|].
  cbn [map omap list_omap]. rewrite IH.
  by destruct (bounded_anext projects pair) as [[] ?].
Qed.

Lemma wave_untouched projects active projects' next_active snap j :
  wave projects active = Some (projects', next_active, snap) ->
  j ∉ next_active.*1 -> projects' !! j = projects !! j.
Proof. intros (u & Hm & _)%wave_Some. by eapply merge_results_untouched. Qed.

(** A pair that stays active comes from a pair that was active, and its
    project is in the batch. *)
Lemma elem_of_survivors projects active k it' :
  (k, it') ∈ survivors projects active <->
  exists it f page, (k, it) ∈ active /\ bounded_anext projects (k, it) = (Item f page, it').
Proof.
  unfold GraphQL.survivors. rewrite list_elem_of_omap. split.
  - intros ([k0 it] & Hin & Hsome). simpl in Hsome.
    destruct (bounded_anext projects (k0, it)) as [[f page| |] it0] eqn:Hb; simplify_eq.
    eauto.
  - intros (it & f & page & Hin & Hb). exists (k, it). split; [done|]. by rewrite Hb.
Qed.

Lemma survivors_subset projects active k :
  k ∈ (survivors projects active).*1 -> k ∈ active.*1.
Proof.
  intros ([k0 it'] & -> & Hin)%list_elem_of_fmap. simpl.
  apply elem_of_survivors in Hin as (it & f & page & Hin & _).
  apply list_elem_of_fmap. by exists (k0, it).
Qed.

Lemma survivors_in_batch projects active k it' :
  (k, it') ∈ survivors projects active -> is_Some (projects !! k).
Proof.
  intros (it & f & page & _ & Hb)%elem_of_survivors.
  unfold GraphQL.bounded_anext in Hb. simpl in Hb. by destruct (projects !! k).
Qed.

Lemma elem_of_snapshot_of projects active k n :
  (k, n) ∈ snapshot_of projects active <->
  k ∈ active.*1 /\ projects !! k = Some n.
Proof.
  unfold snapshot_of. rewrite list_elem_of_omap. split.
  - intros ([k0 it] & Hin & Hsome). simpl in Hsome.
    destruct (projects !! k0) as [p|] eqn:Hk; simplify_eq/=.
    rewrite copy_project_id. split; [|done]. apply list_elem_of_fmap. by exists (k, it).
  - intros [([k0 it] & -> & Hin)%list_elem_of_fmap Hk]. exists (k0, it). split; [done|].
    simpl in *. rewrite Hk. simpl. by rewrite copy_project_id.
Qed.

Lemma snapshot_of_indices projects active :
  Forall (fun pair : nat * fetch_state => is_Some (projects !! pair.1)) active ->
  (snapshot_of projects active).*1 = active.*1.
Proof.
  unfold snapshot_of. induction 1 as [|[k it] active [p Hk] _ IH]; [done|].
  simpl in Hk. cbn [omap list_omap fst]. rewrite Hk. cbn [fmap option_fmap option_map].
  cbn [fmap list_fmap fst]. f_equal. exact IH.
Qed.

(** When a wave yields a snapshot, it lists the pairs that stay active. *)
Lemma wave_snapshot projects active projects' next_active snap s :
  wave projects active = Some (projects', next_active, snap) ->
  snap = Some s ->
  s = snapshot_of projects' next_active /\ s.*1 = next_active.*1.
Proof.
  intros Hw ->. pose proof (wave_next _ _ _ _ _ Hw) as Hnext.
  pose proof (wave_grows _ _ _ _ _ Hw) as Hg.
  apply wave_Some in Hw as ([|] & Hm & [= ->]). split; [done|].
  apply snapshot_of_indices, Forall_forall. intros [k it'] Hin. simpl.
  rewrite Hnext in Hin. destruct (survivors_in_batch _ _ _ _ Hin) as [p Hk].
  destruct (grows_lookup _ _ _ _ Hg Hk) as (p' & -> & _). eauto.
Qed.


(** *** The whole loop *)



(** Every entry of every snapshot is the project of that position, with
    what was merged into it up to then. *)
Lemma process_waves_entries fuel : forall projects active snaps s final snap k n,
  process_waves fuel projects active = (snaps, s, final) ->
  snap ∈ snaps -> (k, n) ∈ snap ->
  exists p0, projects !! k = Some p0 /\ node_grows p0 n.
Proof.
  induction fuel as [|fuel IH]; intros projects active snaps s final snap k n;
    destruct active as [|pair active]; simpl;
    try (intros [= <- <- <-] Hin; by apply elem_of_nil in Hin).
  destruct (wave projects (pair :: active)) as [[[projects' next_active] snap0]|] eqn:Hw;
    [|intros [= <- <- <-] Hin; by apply elem_of_nil in Hin].
  destruct (process_waves fuel projects' next_active) as [[snaps' s'] final'] eqn:Hrec.
  intros [= <- <- <-] Hin Hentry.
  pose proof (wave_grows _ _ _ _ _ Hw) as Hg.
  apply elem_of_app in Hin as [Hin|Hin].
  - destruct snap0 as [s0|]; simpl in Hin; [|by apply elem_of_nil in Hin].
    apply list_elem_of_singleton in Hin as ->.
    destruct (wave_snapshot _ _ _ _ _ _ Hw eq_refl) as [-> _].
    apply elem_of_snapshot_of in Hentry as [_ Hk].
    by eapply grows_lookup_r.
  - destruct (IH _ _ _ _ _ _ _ _ Hrec Hin Hentry) as (p1 & Hk1 & Hg1).
    destruct (grows_lookup_r _ _ _ _ Hg Hk1) as (p0 & Hk0 & Hg0).
    exists p0. split; [done|]. by eapply node_grows_trans.
Qed.


(** A project that is not in the active set is in no later snapshot and
    is not written to. *)
Lemma process_waves_inactive fuel : forall projects active snaps s final k,
  process_waves fuel projects active = (snaps, s, final) ->
  k ∉ active.*1 ->
  (forall snap, snap ∈ snaps -> k ∉ snap.*1) /\ final !! k = projects !! k.
Proof.
  induction fuel as [|fuel IH]; intros projects active snaps s final k;
    destruct active as [|pair active]; simpl;
    try (intros [= <- <- <-] _; split; [intros snap Hin; by apply elem_of_nil in Hin|done]).
  destruct (wave projects (pair :: active)) as [[[projects' next_active] snap0]|] eqn:Hw;
    [|intros [= <- <- <-] _; split; [intros snap Hin; by apply elem_of_nil in Hin|done]].
  destruct (process_waves fuel projects' next_active) as [[snaps' s'] final'] eqn:Hrec.
  intros [= <- <- <-] Hk.
  assert (Hk' : k ∉ next_active.*1).
  { rewrite (wave_next _ _ _ _ _ Hw). intros Hin. by apply survivors_subset in Hin. }
  destruct (IH _ _ _ _ _ _ Hrec Hk') as [Hsnaps Hfinal]. split.
  - intros snap [Hin|Hin]%elem_of_app; [|by apply Hsnaps].
    destruct snap0 as [s0|]; simpl in Hin; [|by apply elem_of_nil in Hin].
    apply list_elem_of_singleton in Hin as ->.
    destruct (wave_snapshot _ _ _ _ _ _ Hw eq_refl) as [_ ->]. done.
  - rewrite Hfinal. by eapply wave_untouched.
Qed.

(** *** A pair whose [anext] fails *)




(** *** Append-only merging *)


(** *** The batch as the paginator hands it over *)

Lemma first_active_seq projects :
  first_active projects = map (fun i => (i, FNew)) (seq 0 (length projects)).
Proof.
  unfold first_active, pair_up, nested_field_generators.
  generalize 0%nat. induction projects as [|p projects IH]; intros a; simpl; [done|].
  by rewrite IH.
Qed.

Lemma elem_of_first_active projects k it :
  (k, it) ∈ first_active projects <-> it = FNew /\ (k < length projects)%nat.
Proof.
  rewrite first_active_seq, list_elem_of_fmap. split.
  - intros (i & [= -> ->] & Hi%elem_of_seq). split; [done|lia].
  - intros [-> Hk]. exists k. split; [done|]. apply elem_of_seq. lia.
Qed.



(** The stream of a project without paginated field reports exhaustion
    at once. *)
Lemma bounded_anext_plain projects k p :
  projects !! k = Some p -> field_generators_of p = [] ->
  bounded_anext projects (k, FNew) = (StopAsyncIteration, FRunning []).
Proof. unfold GraphQL.bounded_anext. simpl. by intros -> ->. Qed.


(** In a dict the first generator paginates a connection. *)
Lemma first_generator_is_connection p field rest :
  NoDup (fields p).*1 ->
  field_generators_of p = (field, PNew) :: rest ->
  is_connection_field p field.
Proof.
  unfold field_generators_of, is_connection_field, get_field.
  induction (fields p) as [|[k v] fs IH]; simpl; [done|].
  intros [Hk Hnd]%NoDup_cons. destruct v as [s|l pi]; simpl.
  - intros Hgen. destruct (String.eqb_spec k field) as [->|Hne]; [|by apply IH].
    exfalso. apply Hk.
    assert (Hin : (field, PNew) ∈ (field, PNew) :: rest) by constructor.
    rewrite <- Hgen in Hin.
    apply (list_elem_of_omap (fun kv : string * value =>
              if is_paginated kv.2 then Some (kv.1, PNew) else None) fs)
      in Hin as ([k' v'] & Hin & Hsome). simpl in Hsome.
    destruct (is_paginated v'); simplify_eq.
    apply list_elem_of_fmap. by exists (field, v').
  - intros [= -> _]. rewrite String.eqb_refl. eauto.
Qed.



(** A wave in which no [anext] returns an item changes nothing, keeps
    no pair and yields no snapshot. *)
Lemma wave_all_fail projects active :
  Forall (fun pair => match (bounded_anext projects pair).1 with
                      | Item _ _ => False
                      | _ => True
                      end) active ->
  wave projects active = Some (projects, [], None).
Proof.
  intros Hall. unfold GraphQL.wave. rewrite zip_map_self.
  assert (Hm : merge_results projects
                 (map (fun pair => (pair, bounded_anext projects pair)) active)
               = Some (projects, false, [])).
  { induction Hall as [|[k it] active Hr _ IH]; simpl; [done|].
    destruct (bounded_anext projects (k, it)) as [[f page| |] it']; simpl in *; done. }
  by rewrite Hm.
Qed.

(** *** Projects without paginated fields *)

(** C3, as the code has it. A project without any paginated field is
    dropped in the first wave: it is in no snapshot of its batch and is
    never written to. If no project of the batch has a paginated field,
    the merger yields no snapshot at all and stops in its first wave,
    leaving the batch as it was. *)
Theorem plain_project_is_in_no_snapshot projects fuel :
  (forall k p, projects !! k = Some p -> field_generators_of p = [] ->
     (forall snap,
        snap ∈ (_process_nested_fields fuel projects (nested_field_generators projects)).1.1 ->
        k ∉ snap.*1)
     /\ (_process_nested_fields fuel projects (nested_field_generators projects)).2 !! k
        = Some p)
  /\ ((forall p, p ∈ projects -> field_generators_of p = []) -> (1 <= fuel)%nat ->
      _process_nested_fields fuel projects (nested_field_generators projects)
      = ([], Stopped, projects)).
Proof.
  unfold GraphQL._process_nested_fields. fold (first_active projects). split.
  - intros k p Hk Hgen.
    destruct fuel as [|fuel]; destruct (first_active projects) as [|pair active] eqn:Hact;
      simpl; try (split; [intros snap Hin; by apply elem_of_nil in Hin|done]).
    destruct (wave projects (pair :: active)) as [[[projects' next_active] snap0]|] eqn:Hw;
      [|split; [intros snap Hin; by apply elem_of_nil in Hin|done]].
    destruct (process_waves fuel projects' next_active) as [[snaps' s'] final'] eqn:Hrec.
    simpl.
    assert (Hk' : k ∉ next_active.*1).
    { rewrite (wave_next _ _ _ _ _ Hw), <- Hact.
      intros ([k0 it'] & -> & Hin)%list_elem_of_fmap. simpl in *.
      apply elem_of_survivors in Hin as (it & f & page & [-> _]%elem_of_first_active & Hb).
      by rewrite (bounded_anext_plain _ _ _ Hk Hgen) in Hb. }
    destruct (process_waves_inactive _ _ _ _ _ _ _ Hrec Hk') as [Hsnaps Hfinal]. split.
    + intros snap [Hin|Hin]%elem_of_app; [|by apply Hsnaps].
      destruct snap0 as [s0|]; simpl in Hin; [|by apply elem_of_nil in Hin].
      apply list_elem_of_singleton in Hin as ->.
      by destruct (wave_snapshot _ _ _ _ _ _ Hw eq_refl) as [_ ->].
    + rewrite Hfinal, <- Hk. by eapply wave_untouched.
  - intros Hall Hfuel. destruct fuel as [|fuel]; [lia|].
    assert (Hw : wave projects (first_active projects) = Some (projects, [], None)).
    { apply wave_all_fail, Forall_forall.
      intros [k it] [-> Hlt]%elem_of_first_active.
      destruct (lookup_lt_is_Some_2 projects k Hlt) as [p Hk].
      rewrite (bounded_anext_plain _ _ _ Hk); [done|].
      apply Hall. by eapply list_elem_of_lookup_2. }
    destruct (first_active projects) as [|pair active]; simpl; [done|].
    rewrite Hw. by destruct fuel.
Qed.

(** *** The first page, merged into itself *)


End Merge.


(** The run of the merger on the first batch of the example endpoint. *)
Example first_batch_run :
  _process_nested_fields Examples.gitlab "Q" "projects" [] 5 Examples.first_batch
    (nested_field_generators Examples.first_batch)
  = ([[(0%nat, Examples.project_1_after_wave_1)];
      [(0%nat, Examples.project_1_after_wave_2)]],
     Stopped,
     [Examples.project_1_after_wave_2; Examples.project_2]).
Proof. reflexivity. Qed.


(** Scenario D of the specification: the members of project 4 say that
    more follows and give no cursor. Its pair is dropped in the second
    wave; project 1 goes on and gets its second page. *)
Example missing_cursor_drops_one_pair :
  _process_nested_fields Examples.gitlab "Q" "projects" [] 5
    [Examples.project_1; Examples.project_4]
    (nested_field_generators [Examples.project_1; Examples.project_4])
  = ([[(0%nat, Examples.project_1_after_wave_1); (1%nat, Examples.project_4_after_wave_1)];
      [(0%nat, Examples.project_1_after_wave_2)]],
     Stopped,
     [Examples.project_1_after_wave_2; Examples.project_4_after_wave_1]).
Proof. reflexivity. Qed.

(** C3 as worded fails on the first batch of the example endpoint:
    project 2 has no paginated field and is not in the first snapshot,
    which lists project 1 alone. *)
Lemma plain_project_missing_from_first_snapshot :
  ~ plain_project_in_first_snapshot Examples.gitlab "Q" "projects" [].
Proof.
  intros H.
  specialize (H 5%nat Examples.first_batch _ _ _ _ 1%nat Examples.project_2
                first_batch_run eq_refl eq_refl).
  simpl in H. apply list_elem_of_singleton in H. discriminate H.
Qed.


End MergerFacts.

(** ** The concurrency cap *)

Module GatherFacts.

Import Gather.

Lemma in_flight_cons K t ts :
  in_flight (Sched K (t :: ts)) = (weight t + in_flight (Sched K ts))%nat.
Proof.
  unfold in_flight, weight. simpl. rewrite filter_cons.
  destruct (is_advancing t); by case_decide.
Qed.

Lemma in_flight_insert ts : forall K i t t',
  ts !! i = Some t ->
  (in_flight (Sched K (<[i := t']> ts)) + weight t
   = in_flight (Sched K ts) + weight t')%nat.
Proof.
  induction ts as [|a ts IH]; intros K [|i] t t'; simpl; try done.
  - intros [= ->]. rewrite !in_flight_cons. lia.
  - intros Hi. rewrite !in_flight_cons. pose proof (IH K i t t' Hi). lia.
Qed.

Lemma in_flight_waiting K n : in_flight (gather K n) = 0%nat.
Proof.
  unfold gather. induction n as [|n IH]; simpl; [done|].
  rewrite in_flight_cons. simpl. exact IH.
Qed.

Lemma in_flight_resolved K ts : all_resolved (Sched K ts) = true -> in_flight (Sched K ts) = 0%nat.
Proof.
  unfold all_resolved. simpl. induction ts as [|t ts IH]; simpl; [done|].
  rewrite in_flight_cons. by destruct t.
Qed.

(** One step keeps the sum of the counter and the pending [anext]s. *)
Lemma perform_invariant s a s' :
  perform s a = Some s' ->
  (sem_value s' + in_flight s' = sem_value s + in_flight s)%nat
  /\ length (tasks s') = length (tasks s).
Proof.
  destruct s as [v ts], a as [i|i ok]; simpl.
  - destruct (ts !! i) as [[| |]|] eqn:Hi; try done. destruct v as [|v]; [done|].
    intros [= <-]. simpl. pose proof (in_flight_insert ts v i _ Advancing Hi) as H.
    unfold in_flight, weight in *. simpl in *. rewrite length_insert. lia.
  - destruct (ts !! i) as [[| |]|] eqn:Hi; try done.
    intros [= <-]. simpl. pose proof (in_flight_insert ts v i _ (Resolved ok) Hi) as H.
    unfold in_flight, weight in *. simpl in *. rewrite length_insert. lia.
Qed.

Lemma schedule_invariant acts : forall s s',
  schedule s acts = Some s' ->
  (sem_value s' + in_flight s' = sem_value s + in_flight s)%nat
  /\ length (tasks s') = length (tasks s).
Proof.
  induction acts as [|a acts IH]; intros s s'; simpl.
  { by intros [= <-]. }
  destruct (perform s a) as [s1|] eqn:Hp; [|done]. intros Hs.
  destruct (perform_invariant _ _ _ Hp) as [H1 H2].
  destruct (IH _ _ Hs) as [H3 H4]. split; lia.
Qed.

(** Entering and leaving the block, for the task at a given place. *)
Lemma perform_acquire K l1 l2 :
  perform (Sched (S K) (l1 ++ Waiting :: l2)) (Acquire (length l1))
  = Some (Sched K (l1 ++ Advancing :: l2)).
Proof.
  unfold perform. cbn [tasks sem_value]. rewrite list_lookup_middle by done.
  rewrite insert_app_r_alt by lia. by rewrite Nat.sub_diag.
Qed.

Lemma perform_release K l1 l2 ok :
  perform (Sched K (l1 ++ Advancing :: l2)) (Release (length l1) ok)
  = Some (Sched (S K) (l1 ++ Resolved ok :: l2)).
Proof.
  unfold perform. cbn [tasks sem_value]. rewrite list_lookup_middle by done.
  rewrite insert_app_r_alt by lia. by rewrite Nat.sub_diag.
Qed.

(** With a semaphore of at least one, the tasks can all run to their
    end, one after the other. *)
Lemma one_by_one_from K m : forall finished,
  schedule (Sched (S K) (finished ++ replicate m Waiting)) (one_by_one (length finished) m)
  = Some (Sched (S K) (finished ++ replicate m (Resolved true))).
Proof.
  induction m as [|m IH]; intros finished; [done|].
  unfold one_by_one. cbn [seq flat_map app replicate schedule].
  rewrite perform_acquire, perform_release.
  rewrite (cons_middle (Resolved true)), (cons_middle (Resolved true) finished), !app_assoc.
  specialize (IH (finished ++ [Resolved true])).
  rewrite length_app in IH. cbn [length] in IH.
  replace (length finished + 1)%nat with (S (length finished)) in IH by lia.
  exact IH.
Qed.

Lemma gather_completes K n :
  (1 <= K)%nat ->
  schedule (gather K n) (one_by_one 0 n) = Some (Sched K (replicate n (Resolved true))).
Proof.
  intros HK. destruct K as [|K]; [lia|]. exact (one_by_one_from K n []).
Qed.

(** C9. However the event loop interleaves the tasks of a wave over
    [n] pairs, with a semaphore of [K]: the counter plus the number of
    pending [anext]s is [K], so at most [K] are pending at any moment,
    and once every task has left its block, by a return or by an
    exception, the counter is back at [K]. Each [anext] performs at
    most one remote call, so at most [K] calls are outstanding. *)
Theorem at_most_K_calls_outstanding K n acts s :
  schedule (gather K n) acts = Some s ->
  (in_flight s <= K)%nat
  /\ (sem_value s + in_flight s = K)%nat
  /\ length (tasks s) = n
  /\ (all_resolved s = true -> sem_value s = K)
  /\ (forall send_api_request query resource_field variables resource st,
        (length (calls (GraphQL.fetch_anext send_api_request query resource_field
                          variables resource st).1.1) <= 1)%nat).
Proof.
  intros Hs. destruct (schedule_invariant _ _ _ Hs) as [Hsum Hlen].
  rewrite in_flight_waiting in Hsum. unfold gather in Hsum, Hlen. simpl in Hsum, Hlen.
  rewrite length_replicate in Hlen. split_and!; try lia.
  - intros Hall. destruct s as [v ts]. rewrite (in_flight_resolved _ _ Hall) in Hsum.
    simpl in *. lia.
  - intros. apply GraphQLFacts.fetch_anext_calls.
Qed.

(** A wave over three pairs under the semaphore of the merger: two
    tasks are inside the block, one has left it by an exception. *)
Lemma three_tasks_under_the_semaphore :
  (in_flight (Sched 48 [Resolved false; Advancing; Advancing]) <= SEMAPHORE_LIMIT)%nat
  /\ (sem_value (Sched 48 [Resolved false; Advancing; Advancing])
      + in_flight (Sched 48 [Resolved false; Advancing; Advancing]) = SEMAPHORE_LIMIT)%nat
  /\ length (tasks (Sched 48 [Resolved false; Advancing; Advancing])) = 3%nat
  /\ (all_resolved (Sched 48 [Resolved false; Advancing; Advancing]) = true ->
      sem_value (Sched 48 [Resolved false; Advancing; Advancing]) = SEMAPHORE_LIMIT)
  /\ (forall send_api_request query resource_field variables resource st,
        (length (calls (GraphQL.fetch_anext send_api_request query resource_field
                          variables resource st).1.1) <= 1)%nat).
Proof.
  apply (at_most_K_calls_outstanding SEMAPHORE_LIMIT 3
           [Acquire 0; Acquire 1; Release 0 false; Acquire 2]).
  reflexivity.
Defined.

(** With a semaphore of one, a second task cannot enter the block while
    the first is inside. *)
Example second_task_waits :
  schedule (gather 1 2) [Acquire 0; Acquire 1] = None
  /\ schedule (gather 1 2) [Acquire 0; Release 0 true; Acquire 1; Release 1 false]
     = Some (Sched 1 [Resolved true; Resolved false]).
Proof. by split. Qed.

End GatherFacts.

(** ** More on the page/offset paginator *)

Module RestSequenceFacts.

Import RestClient.

Section Paginate.

Variable send_api_request : request -> reply.
Variable path : string.
Variable params : option Py.dict.
Variable page_size : Z.

Abbreviation page_request := (page_request path params page_size).
Abbreviation paginate_from := (paginate_from send_api_request path params page_size).
Abbreviation full_pages := (full_pages send_api_request path params page_size).
Abbreviation is_full_page := (is_full_page send_api_request path params page_size).

(** Whatever the endpoint does and however far the loop gets: the calls
    are the requests for consecutive pages, no batch is empty, and each
    iteration calls once and yields at most once. *)
Lemma paginate_from_shape fuel : forall page,
  calls (paginate_from fuel page).1
  = map (fun i => page_request (page + Z.of_nat i))
        (seq 0 (length (calls (paginate_from fuel page).1)))
  /\ Forall (fun b => b <> []) (yields (paginate_from fuel page).1)
  /\ (length (yields (paginate_from fuel page).1)
      <= length (calls (paginate_from fuel page).1))%nat
  /\ (length (calls (paginate_from fuel page).1)
      <= S (length (yields (paginate_from fuel page).1)))%nat
  /\ (length (calls (paginate_from fuel page).1) <= fuel)%nat.
Proof.
  induction fuel as [|fuel IH]; intros page; simpl.
  { split_and!; try done; try lia; by repeat constructor. }
  destruct (send_api_request (page_request page)) as [|response] eqn:Hsend; simpl.
  { rewrite Z.add_0_r. split_and!; try done; try lia; by repeat constructor. }
  destruct response as [|r response]; simpl.
  { rewrite Z.add_0_r. split_and!; try done; try lia; by repeat constructor. }
  destruct (Z.of_nat (S (length response)) <? page_size)%Z; simpl.
  { rewrite Z.add_0_r. split_and!; try done; try lia; by repeat constructor. }
  destruct (IH (page + 1)%Z) as (Hc & Hne & Hle & Hge & Hfuel).
  destruct (paginate_from fuel (page + 1)%Z) as [t s]. simpl in *.
  rewrite Z.add_0_r. split_and!; try lia.
  - f_equal. rewrite Hc at 1. rewrite <- seq_shift, map_map.
    apply map_ext. intros i. f_equal. lia.
  - by constructor.
Qed.

(** A sequence that has failed went through [n] full pages and then
    made the one call that raised. *)
Lemma paginate_from_failed fuel : forall page t,
  paginate_from fuel page = (t, Failed) ->
  exists n,
    (n < fuel)%nat
    /\ (forall i, (i < n)%nat -> is_full_page (page + Z.of_nat i))
    /\ send_api_request (page_request (page + Z.of_nat n)) = Raised
    /\ t = full_pages n page ++ [Call (page_request (page + Z.of_nat n))].
Proof.
  induction fuel as [|fuel IH]; intros page t; simpl; [done|].
  destruct (send_api_request (page_request page)) as [|response] eqn:Hsend.
  { intros [= <-]. exists 0%nat. rewrite Z.add_0_r.
    split_and!; [lia|intros; lia|done|done]. }
  destruct response as [|r response]; [done|].
  destruct (Z.ltb_spec (Z.of_nat (length (r :: response))) page_size) as [Hlt|Hge]; [done|].
  destruct (paginate_from fuel (page + 1)%Z) as [t' s'] eqn:Hrec.
  intros [= <- ->].
  destruct (IH _ _ Hrec) as (n & Hn & Hfull & Hlast & ->).
  exists (S n).
  replace (page + Z.of_nat (S n))%Z with (page + 1 + Z.of_nat n)%Z by lia.
  split_and!; [lia| |done|].
  - intros [|i] Hi.
    + rewrite Z.add_0_r. exists (r :: response). by split_and!.
    + replace (page + Z.of_nat (S i))%Z with (page + 1 + Z.of_nat i)%Z by lia.
      apply Hfull. lia.
  - simpl. by rewrite Hsend.
Qed.

(** The requests of a page-style sequence, in every run: they ask for
    the pages 1, 2, 3, ... in this order; no batch yielded is empty; and
    there are as many calls as batches, or one more. *)
Theorem page_requests_are_consecutive fuel :
  calls (_make_paginated_request send_api_request path params page_size fuel).1
  = map (fun i => page_request (1 + Z.of_nat i))
        (seq 0 (length (calls (_make_paginated_request send_api_request path params
                                 page_size fuel).1)))
  /\ Forall (fun b => b <> [])
            (yields (_make_paginated_request send_api_request path params page_size fuel).1)
  /\ (length (yields (_make_paginated_request send_api_request path params page_size fuel).1)
      <= length (calls (_make_paginated_request send_api_request path params
                          page_size fuel).1))%nat
  /\ (length (calls (_make_paginated_request send_api_request path params page_size fuel).1)
      <= S (length (yields (_make_paginated_request send_api_request path params
                              page_size fuel).1)))%nat.
Proof.
  unfold _make_paginated_request.
  destruct (paginate_from_shape fuel 1) as (Hc & Hne & Hle & Hge & _). by split_and!.
Qed.

(** A transport error is not retried and ends the sequence: the batches
    of the pages before it have been yielded, each of full size, and the
    call that raised is the last event. *)
Theorem page_failure_ends_the_sequence fuel t :
  _make_paginated_request send_api_request path params page_size fuel = (t, Failed) ->
  exists n,
    (n < fuel)%nat
    /\ (forall i, (i < n)%nat -> is_full_page (1 + Z.of_nat i))
    /\ send_api_request (page_request (1 + Z.of_nat n)) = Raised
    /\ t = full_pages n 1 ++ [Call (page_request (1 + Z.of_nat n))]
    /\ length (yields t) = n
    /\ length (calls t) = S n.
Proof.
  intros Hrun. unfold _make_paginated_request in Hrun.
  destruct (paginate_from_failed _ _ _ Hrun) as (n & Hn & Hfull & Hlast & ->).
  destruct (RestFacts.full_pages_calls send_api_request path params page_size n 1 Hfull)
    as (Hc & Hy & _).
  exists n. split_and!; try done.
  - rewrite TraceFacts.yields_app. simpl. by rewrite app_nil_r.
  - rewrite TraceFacts.calls_app, Hc, length_app, length_map, length_seq. simpl. lia.
Qed.

(** What the caller passes as [params] reaches the endpoint in every
    request, except under the keys ["page"] and ["per_page"], which always
    hold the page counter and the page size. *)
Theorem caller_params_reach_every_request page k :
  k <> "page" ->
  k <> "per_page" ->
  Py.get (rq_params (page_request page)) k = Py.get (Py.or_empty params) k
  /\ Py.get (rq_params (page_request page)) "page" = Some (Py.Int page)
  /\ Py.get (rq_params (page_request page)) "per_page" = Some (Py.Int page_size).
Proof.
  intros Hpage Hper. simpl. unfold request_params. split_and!.
  - rewrite !PyFacts.get_set_ne by done. done.
  - apply PyFacts.get_set_eq.
  - rewrite PyFacts.get_set_ne by done. apply PyFacts.get_set_eq.
Qed.

End Paginate.

Section ServedList.

Variable items : list record.
Variable path : string.
Variable params : option Py.dict.
Variable page_size : Z.

(** What the list-serving endpoint answers to the request for a page. *)
Lemma serve_list_page k :
  (0 <= page_size)%Z ->
  serve_list items (RestClient.page_request path params page_size (1 + Z.of_nat k))
  = Body (take (Z.to_nat page_size) (drop (k * Z.to_nat page_size) items)).
Proof.
  intros HN. unfold serve_list, int_param.
  destruct (RestFacts.page_request_params path params page_size (1 + Z.of_nat k))
    as [-> ->].
  do 2 f_equal. rewrite <- (Nat2Z.id (k * Z.to_nat page_size)). f_equal.
  rewrite Nat2Z.inj_mul, Z2Nat.id by done. lia.
Qed.

Lemma paginate_served_list fuel : forall k,
  (1 <= page_size)%Z ->
  (length (drop (k * Z.to_nat page_size) items) < fuel)%nat ->
  exists t,
    RestClient.paginate_from (serve_list items) path params page_size fuel (1 + Z.of_nat k)
    = (t, Stopped)
    /\ concat (yields t) = drop (k * Z.to_nat page_size) items
    /\ length (calls t)
       = S (length (drop (k * Z.to_nat page_size) items) / Z.to_nat page_size).
Proof.
  induction fuel as [|fuel IH]; intros k HN Hfuel; [lia|].
  cbn [RestClient.paginate_from]. rewrite serve_list_page by lia.
  set (n := Z.to_nat page_size) in *. assert (Hn : (1 <= n)%nat) by lia.
  set (rest := drop (k * n) items) in *.
  destruct (take n rest) as [|x response] eqn:Htake.
  { assert (rest = []) as Hrest.
    { destruct rest as [|y rest']; [done|]. destruct n; [lia|done]. }
    eexists. split; [done|]. rewrite Hrest. simpl. split; [done|].
    by rewrite Nat.Div0.div_0_l. }
  rewrite <- Htake.
  assert (Hlen : length (take n rest) = (n `min` length rest)%nat) by apply length_take.
  destruct (Z.ltb_spec (Z.of_nat (length (take n rest))) page_size) as [Hlt|Hge].
  - assert (Hshort : (length rest < n)%nat) by lia.
    rewrite take_ge by lia. eexists. split; [done|]. simpl. rewrite app_nil_r.
    split; [done|]. by rewrite Nat.div_small.
  - assert (Hfull : (n <= length rest)%nat) by lia.
    assert (Hnext : drop (S k * n) items = drop n rest).
    { unfold rest. rewrite drop_drop. f_equal. lia. }
    destruct (IH (S k) HN) as (t' & Hrun & Hconcat & Hcalls).
    { rewrite Hnext, length_drop. lia. }
    replace (1 + Z.of_nat k + 1)%Z with (1 + Z.of_nat (S k))%Z by lia.
    rewrite Hrun. eexists. split; [done|]. simpl. split.
    + rewrite Hconcat, Hnext. apply take_drop.
    + rewrite Hcalls, Hnext, length_drop. f_equal.
      replace (length rest) with ((length rest - n) + 1 * n)%nat at 2 by lia.
      rewrite Nat.div_add by lia. lia.
Qed.

(** Against an endpoint that serves a list by pages of the size it is
    asked for, the sequence ends, the batches put end to end are the
    list, nothing lost, nothing twice, and the calls are one more than
    the number of full pages: when the length is a multiple of the page
    size, a last call fetches an empty page. *)
Theorem served_list_is_paginated_without_loss fuel :
  (1 <= page_size)%Z ->
  (length items < fuel)%nat ->
  exists t,
    _make_paginated_request (serve_list items) path params page_size fuel = (t, Stopped)
    /\ concat (yields t) = items
    /\ length (calls t) = S (length items / Z.to_nat page_size).
Proof.
  intros HN Hfuel. unfold _make_paginated_request.
  destruct (paginate_served_list fuel 0 HN) as (t & Hrun & Hconcat & Hcalls);
    [by rewrite Nat.mul_0_l|].
  rewrite Nat.mul_0_l in *. simpl in *. eauto.
Qed.

End ServedList.

(** *** [get_resource] and [get_group_resource] *)

Section Callers.

Variable send_api_request : request -> reply.
Variable error_text : request -> string.

Lemma paginate_from_logs_nothing path params page_size fuel : forall page,
  errors_logged (RestClient.paginate_from send_api_request path params page_size fuel page).1
  = [].
Proof.
  induction fuel as [|fuel IH]; intros page; simpl; [done|].
  destruct (send_api_request _) as [|[|r response]]; simpl; try done.
  destruct (Z.of_nat (S (length response)) <? page_size)%Z; simpl; [done|].
  specialize (IH (page + 1)%Z).
  by destruct (RestClient.paginate_from _ _ _ _ fuel (page + 1)%Z).
Qed.

Lemma drop_empty_batches_id t :
  Forall (fun b => b <> []) (yields t) -> drop_empty_batches t = t.
Proof.
  unfold drop_empty_batches. induction t as [|e t IH]; [done|].
  destruct e as [r|b|msg]; cbn [yields omap list_omap].
  - intros H. f_equal. by apply IH.
  - intros [Hb H]%Forall_cons. destruct b; [done|]. f_equal. by apply IH.
  - intros H. f_equal. by apply IH.
Qed.

Lemma errors_logged_app {Req Batch} (t1 t2 : list (event Req Batch)) :
  errors_logged (t1 ++ t2) = errors_logged t1 ++ errors_logged t2.
Proof. apply omap_app. Qed.

(** [get_resource] asks for pages of 100, yields the batches of the
    paginator, and logs nothing unless the transport raises; then it
    logs once, last, with the text of the exception of the request that
    raised, and fails. *)
Theorem resource_failure_is_logged_once resource_type params fuel :
  yields (get_resource send_api_request error_text resource_type params fuel).1
  = yields (_make_paginated_request send_api_request resource_type params
              DEFAULT_PAGE_SIZE fuel).1
  /\ calls (get_resource send_api_request error_text resource_type params fuel).1
     = map (fun i => RestClient.page_request resource_type params 100 (1 + Z.of_nat i))
           (seq 0 (length (calls (get_resource send_api_request error_text resource_type
                                    params fuel).1)))
  /\ ((get_resource send_api_request error_text resource_type params fuel).2 <> Failed ->
      errors_logged (get_resource send_api_request error_text resource_type params fuel).1
      = [])
  /\ ((get_resource send_api_request error_text resource_type params fuel).2 = Failed ->
      exists t r,
        (get_resource send_api_request error_text resource_type params fuel).1
        = t ++ [Call r;
                LogError ("Failed to fetch " +:+ resource_type +:+ ": " +:+ error_text r)]
        /\ send_api_request r = Raised
        /\ errors_logged t = []).
Proof.
  unfold get_resource.
  pose proof (paginate_from_shape send_api_request resource_type params
                DEFAULT_PAGE_SIZE fuel 1) as (Hc & _).
  fold (_make_paginated_request send_api_request resource_type params DEFAULT_PAGE_SIZE fuel)
    in Hc.
  pose proof (paginate_from_logs_nothing resource_type params DEFAULT_PAGE_SIZE fuel 1)
    as Hlogs.
  fold (_make_paginated_request send_api_request resource_type params DEFAULT_PAGE_SIZE fuel)
    in Hlogs.
  destruct (_make_paginated_request send_api_request resource_type params
              DEFAULT_PAGE_SIZE fuel) as [t s] eqn:Hrun.
  cbn [fst snd] in *.
  destruct s; cbn [fst snd]; split_and!; try done.
  - rewrite TraceFacts.yields_app. simpl. by rewrite app_nil_r.
  - rewrite TraceFacts.calls_app. simpl. rewrite app_nil_r. exact Hc.
  - intros _.
    destruct (paginate_from_failed _ _ _ _ _ _ _ Hrun) as (n & _ & _ & Hraised & ->).
    exists (RestClient.full_pages send_api_request resource_type params DEFAULT_PAGE_SIZE n 1),
      (RestClient.page_request resource_type params DEFAULT_PAGE_SIZE (1 + Z.of_nat n)).
    split_and!; [|done|].
    + rewrite <- app_assoc. simpl. do 4 f_equal. unfold raised_text.
      rewrite TraceFacts.calls_app. simpl. by rewrite last_snoc.
    + rewrite errors_logged_app in Hlogs. by apply app_eq_nil in Hlogs as [? _].
Qed.

(** [get_group_resource] calls the endpoint for no resource type but
    issues, merge requests and labels. For these it asks
    [groups/<id>/<type>] for pages of 100, and yields every batch of the
    paginator: none is empty, so the test before the [yield] drops
    nothing. *)
Theorem group_resource_yields_every_batch group_id resource_type fuel :
  (is_valid_group_resource resource_type = false ->
   get_group_resource send_api_request error_text group_id resource_type fuel
   = ([], Failed))
  /\ (is_valid_group_resource resource_type = true ->
      yields (get_group_resource send_api_request error_text group_id resource_type fuel).1
      = yields (_make_paginated_request send_api_request
                  ("groups/" +:+ group_id +:+ "/" +:+ resource_type)
                  (Some (resource_params RESOURCE_PARAMS resource_type))
                  DEFAULT_PAGE_SIZE fuel).1
      /\ calls (get_group_resource send_api_request error_text group_id resource_type fuel).1
         = map (fun i => RestClient.page_request
                           ("groups/" +:+ group_id +:+ "/" +:+ resource_type)
                           (Some (resource_params RESOURCE_PARAMS resource_type))
                           100 (1 + Z.of_nat i))
               (seq 0 (length (calls (get_group_resource send_api_request error_text
                                        group_id resource_type fuel).1)))
      /\ (get_group_resource send_api_request error_text group_id resource_type fuel).2
         = (_make_paginated_request send_api_request
              ("groups/" +:+ group_id +:+ "/" +:+ resource_type)
              (Some (resource_params RESOURCE_PARAMS resource_type))
              DEFAULT_PAGE_SIZE fuel).2).
Proof.
  unfold get_group_resource. split; intros ->; [done|]. cbn [negb].
  set (path := "groups/" +:+ group_id +:+ "/" +:+ resource_type).
  set (request_params := resource_params RESOURCE_PARAMS resource_type).
  pose proof (paginate_from_shape send_api_request path (Some request_params)
                DEFAULT_PAGE_SIZE fuel 1) as (Hc & Hne & _).
  fold (_make_paginated_request send_api_request path (Some request_params)
          DEFAULT_PAGE_SIZE fuel) in Hc, Hne.
  destruct (_make_paginated_request send_api_request path (Some request_params)
              DEFAULT_PAGE_SIZE fuel) as [t s].
  cbn [fst snd] in *. rewrite (drop_empty_batches_id t Hne).
  destruct s; cbn [fst snd]; split_and!; try done.
  - rewrite TraceFacts.yields_app. simpl. by rewrite app_nil_r.
  - rewrite TraceFacts.calls_app. simpl. rewrite app_nil_r. exact Hc.
Qed.

End Callers.

(** A list of five items by pages of two: three batches, three calls.
    A list of four: two batches, and a third call for the empty page. *)
Lemma five_items_by_pages_of_two :
  exists t,
    _make_paginated_request (serve_list ["a"; "b"; "c"; "d"; "e"]) "issues" None 2 6
    = (t, Stopped)
    /\ concat (yields t) = ["a"; "b"; "c"; "d"; "e"]
    /\ length (calls t) = S (length ["a"; "b"; "c"; "d"; "e"] / Z.to_nat 2).
Proof.
  apply (served_list_is_paginated_without_loss ["a"; "b"; "c"; "d"; "e"] "issues" None 2 6).
  - lia.
  - simpl. lia.
Defined.

Example four_items_by_pages_of_two :
  yields (_make_paginated_request (serve_list ["a"; "b"; "c"; "d"]) "issues" None 2 9).1
  = [["a"; "b"]; ["c"; "d"]]
  /\ length (calls (_make_paginated_request (serve_list ["a"; "b"; "c"; "d"])
                      "issues" None 2 9).1) = 3%nat.
Proof. by split. Qed.

(** The endpoint that fails on its second page. *)
Lemma failure_on_the_second_page :
  exists n,
    (n < 5)%nat
    /\ (forall i, (i < n)%nat ->
          is_full_page Examples.endpoint_down "issues" None 2 (1 + Z.of_nat i))
    /\ Examples.endpoint_down (RestClient.page_request "issues" None 2 (1 + Z.of_nat n))
       = Raised
    /\ (_make_paginated_request Examples.endpoint_down "issues" None 2 5).1
       = RestClient.full_pages Examples.endpoint_down "issues" None 2 n 1
         ++ [Call (RestClient.page_request "issues" None 2 (1 + Z.of_nat n))]
    /\ length (yields (_make_paginated_request Examples.endpoint_down "issues" None 2 5).1)
       = n
    /\ length (calls (_make_paginated_request Examples.endpoint_down "issues" None 2 5).1)
       = S n.
Proof.
  apply (page_failure_ends_the_sequence Examples.endpoint_down "issues" None 2 5).
  reflexivity.
Defined.

(** The parameters of the labels of a group, in the request for page 3. *)
Lemma label_params_reach_the_request :
  Py.get (rq_params (RestClient.page_request "groups/7/labels"
                       (Some (resource_params RESOURCE_PARAMS "labels")) 100 3))
         "with_counts"
  = Py.get (Py.or_empty (Some (resource_params RESOURCE_PARAMS "labels"))) "with_counts"
  /\ Py.get (rq_params (RestClient.page_request "groups/7/labels"
                          (Some (resource_params RESOURCE_PARAMS "labels")) 100 3)) "page"
     = Some (Py.Int 3)
  /\ Py.get (rq_params (RestClient.page_request "groups/7/labels"
                          (Some (resource_params RESOURCE_PARAMS "labels")) 100 3))
            "per_page"
     = Some (Py.Int 100).
Proof.
  apply (caller_params_reach_every_request "groups/7/labels"
           (Some (resource_params RESOURCE_PARAMS "labels")) 100 3 "with_counts");
    discriminate.
Defined.

(** A page parameter of the caller does not reach the endpoint. *)
Example caller_page_is_overridden :
  Py.get (rq_params (RestClient.page_request "issues" (Some [("page", Py.Int 7)]) 100 1))
         "page" = Some (Py.Int 1).
Proof. reflexivity. Qed.

(** What the two callers do on an endpoint that is down, and on a
    resource type that groups do not have. *)
Example callers_on_an_endpoint_that_is_down :
  get_resource (fun _ => RestClient.Raised) Examples.endpoint_error_text "issues" None 5
  = ([Call (RestClient.page_request "issues" None 100 1);
      LogError "Failed to fetch issues: 502 Bad Gateway"],
     Failed)
  /\ get_group_resource (fun _ => RestClient.Raised) Examples.endpoint_error_text
       "7" "labels" 5
     = ([Call (RestClient.page_request "groups/7/labels"
                 (Some [("with_counts", Py.Bool true);
                        ("include_descendant_groups", Py.Bool true);
                        ("only_group_labels", Py.Bool false)]) 100 1);
         LogError "Failed to fetch labels for group 7: 502 Bad Gateway"],
        Failed)
  /\ get_group_resource Examples.endpoint_down Examples.endpoint_error_text "7" "pipelines" 5
     = ([], Failed).
Proof. by split_and!. Qed.

End RestSequenceFacts.

(** ** More on the cursor paginator *)

Module CursorSequenceFacts.

Import GraphQL.

Lemma calls_call {Req Batch} (r : Req) (t : list (event Req Batch)) :
  calls (Call r :: t) = r :: calls t.
Proof. done. Qed.

Lemma calls_yield {Req Batch} (b : Batch) (t : list (event Req Batch)) :
  calls (Yield b :: t) = calls t.
Proof. done. Qed.

Lemma yields_call {Req Batch} (r : Req) (t : list (event Req Batch)) :
  yields (Call r :: t) = yields t.
Proof. done. Qed.

Lemma yields_yield {Req Batch} (b : Batch) (t : list (event Req Batch)) :
  yields (Yield b :: t) = b :: yields t.
Proof. done. Qed.

(** Storing the entries of [d] into a dict that starts with the key [k]:
    the value given to [k] at the start does not matter once [d] has the
    key. *)
Lemma update_from_head k (d : Py.dict) : forall x x' tail,
  is_Some (Py.get d k) ->
  fold_left (fun d1 kv => Py.set d1 kv.1 kv.2) d ((k, x) :: tail)
  = fold_left (fun d1 kv => Py.set d1 kv.1 kv.2) d ((k, x') :: tail).
Proof.
  induction d as [|[k' v'] d IH]; intros x x' tail; simpl.
  { by intros [? ?]. }
  rewrite (String.eqb_sym k k').
  destruct (String.eqb_spec k' k) as [->|Hne]; [done|].
  intros Hk. by apply IH.
Qed.

Lemma get_fold_absent k (d : Py.dict) : forall d0,
  k ∉ d.*1 ->
  Py.get (fold_left (fun d1 kv => Py.set d1 kv.1 kv.2) d d0) k = Py.get d0 k.
Proof.
  induction d as [|[k' v'] d IH]; intros d0 Hk; simpl; [done|].
  simpl in Hk. apply not_elem_of_cons in Hk as [Hne Hk].
  rewrite IH by done. by apply PyFacts.get_set_ne.
Qed.

(** In a dict that is updated with a dict [d] without repeated keys, a
    key of [d] has the value that [d] gives it. *)
Lemma get_update_right k v (d : Py.dict) : forall d0,
  NoDup d.*1 ->
  Py.get d k = Some v ->
  Py.get (Py.update d0 d) k = Some v.
Proof.
  unfold Py.update. induction d as [|[k' v'] d IH]; intros d0 Hnd; simpl; [done|].
  simpl in Hnd. apply NoDup_cons in Hnd as [Hk' Hnd].
  destruct (String.eqb_spec k' k) as [->|Hne].
  - intros [= ->]. rewrite get_fold_absent by done. apply PyFacts.get_set_eq.
  - intros Hk. by apply IH.
Qed.

Section Client.

Variable send_api_request : request -> reply.
Variable query : string.
Variable resource_field : string.
Variable variables : option Py.dict.

Abbreviation execute_paginated_from :=
  (execute_paginated_from send_api_request query resource_field variables).
Abbreviation response_at := (response_at send_api_request query resource_field variables).
Abbreviation follows := (follows send_api_request query resource_field variables).
Abbreviation top_request := (fun cursor => Request query (cursor_variables cursor variables)).

Lemma response_at_Some cursor rd :
  response_at cursor = Some rd ->
  exists d, send_api_request (top_request cursor) = Body None (Some d)
    /\ lookup_resource d resource_field = Some rd.
Proof.
  unfold GraphQL.response_at.
  destruct (send_api_request _) as [|[e|] [d|]]; try done. eauto.
Qed.

(** The loop along a chain of responses. *)
Lemma execute_from_follows pages : forall fuel cursor,
  follows cursor pages ->
  (length pages <= fuel)%nat ->
  exists t,
    execute_paginated_from fuel cursor = (t, Stopped)
    /\ yields t = map batch_of pages
    /\ length (calls t) = length pages
    /\ errors_logged t = [].
Proof.
  induction pages as [|rd rest IH]; intros fuel cursor; [done|].
  intros (Hresp & Hnodes & pi & Hpi & Hrest) Hfuel.
  destruct fuel as [|fuel]; [simpl in Hfuel; lia|].
  destruct (response_at_Some _ _ Hresp) as (d & Hsend & Hrd).
  cbn [GraphQL.execute_paginated_from].
  rewrite (GraphQLFacts.execute_query_ok _ _ _ _ Hsend), Hrd.
  assert (Hb : batch_of rd
               = (default [] (rd_nodes rd), nested_field_generators (default [] (rd_nodes rd))))
    by done.
  destruct (default [] (rd_nodes rd)) as [|n ns] eqn:Hn; [done|]. rewrite Hpi.
  destruct rest as [|rd' rest'].
  - rewrite Hrest. cbn [negb]. eexists. split; [done|].
    cbn [map]. rewrite Hb. by split_and!.
  - destruct Hrest as [Hnext Hrest]. rewrite Hnext. cbn [negb].
    destruct (IH fuel (endCursor pi) Hrest) as (t' & Hrun & Hy & Hc & Hl);
      [simpl in *; lia|].
    rewrite Hrun. eexists. split; [done|]. cbn [map]. rewrite Hb.
    cbn [app]. rewrite calls_call, calls_yield, yields_call, yields_yield.
    split_and!.
    + by rewrite Hy.
    + simpl. by rewrite Hc.
    + exact Hl.
Qed.

(** The shape of every trace of the loop. *)
Lemma execute_from_shape fuel : forall cursor,
  Forall (fun b : batch => b.1 <> [] /\ b.2 = nested_field_generators b.1)
         (yields (execute_paginated_from fuel cursor).1)
  /\ Forall (fun r => exists c, r = top_request c)
            (calls (execute_paginated_from fuel cursor).1)
  /\ (length (yields (execute_paginated_from fuel cursor).1)
      <= length (calls (execute_paginated_from fuel cursor).1))%nat
  /\ (length (calls (execute_paginated_from fuel cursor).1)
      <= S (length (yields (execute_paginated_from fuel cursor).1)))%nat.
Proof.
  induction fuel as [|fuel IH]; intros cursor.
  { simpl. split_and!; try lia; constructor. }
  cbn [GraphQL.execute_paginated_from].
  destruct (GraphQLFacts.execute_query_head send_api_request query
              (cursor_variables cursor variables)) as (logs & Hev & Hc & Hy).
  destruct (_execute_query send_api_request query (cursor_variables cursor variables))
    as [ev [d|]]; cbn [fst] in Hev; subst ev.
  2:{ cbn [fst]. rewrite calls_call, yields_call, Hc, Hy.
      split_and!; simpl; try lia; repeat constructor. by exists cursor. }
  destruct (lookup_resource d resource_field) as [rd|].
  2:{ cbn [fst]. rewrite calls_call, yields_call, Hc, Hy.
      split_and!; simpl; try lia; repeat constructor. by exists cursor. }
  destruct (default [] (rd_nodes rd)) as [|n ns] eqn:Hn.
  { cbn [fst]. rewrite calls_call, yields_call, Hc, Hy.
    split_and!; simpl; try lia; repeat constructor. by exists cursor. }
  assert (Hone : forall (t : events) (s : status),
    Forall (fun b : batch => b.1 <> [] /\ b.2 = nested_field_generators b.1) (yields t) ->
    Forall (fun r => exists c, r = top_request c) (calls t) ->
    (length (yields t) <= length (calls t))%nat ->
    (length (calls t) <= S (length (yields t)))%nat ->
    let run := (((Call (top_request cursor) :: logs)
                   ++ [Yield (n :: ns, nested_field_generators (n :: ns))]) ++ t, s) in
    Forall (fun b : batch => b.1 <> [] /\ b.2 = nested_field_generators b.1) (yields run.1)
    /\ Forall (fun r => exists c, r = top_request c) (calls run.1)
    /\ (length (yields run.1) <= length (calls run.1))%nat
    /\ (length (calls run.1) <= S (length (yields run.1)))%nat).
  { intros t s H1 H2 H3 H4. cbn [fst].
    rewrite !TraceFacts.calls_app, !TraceFacts.yields_app, calls_call, yields_call, Hc, Hy.
    simpl. split_and!; try lia.
    - by constructor.
    - constructor; [by exists cursor|done]. }
  destruct (rd_pageInfo rd) as [pi|].
  2:{ specialize (Hone [] Failed). rewrite app_nil_r in Hone.
      apply Hone; simpl; try lia; constructor. }
  destruct (hasNextPage pi); cbn [negb].
  - destruct (IH (endCursor pi)) as (H1 & H2 & H3 & H4).
    destruct (execute_paginated_from fuel (endCursor pi)) as [t s]. by apply Hone.
  - specialize (Hone [] Stopped). rewrite app_nil_r in Hone.
    apply Hone; simpl; try lia; constructor.
Qed.


(** Where a trace that failed ends. *)
Lemma execute_from_failed fuel : forall cursor t,
  execute_paginated_from fuel cursor = (t, Failed) ->
  exists pre req,
    (exists logs, t = pre ++ Call req :: logs
       /\ calls logs = [] /\ yields logs = []
       /\ unusable send_api_request resource_field req)
    \/ (exists d rd, t = pre ++ [Call req; Yield (batch_of rd)]
          /\ send_api_request req = Body None (Some d)
          /\ lookup_resource d resource_field = Some rd
          /\ default [] (rd_nodes rd) <> []
          /\ rd_pageInfo rd = None).
Proof.
  induction fuel as [|fuel IH]; intros cursor t; simpl; [done|].
  set (req0 := Request query (cursor_variables cursor variables)).
  unfold GraphQL._execute_query. fold req0.
  destruct (send_api_request req0) as [msg|[e|] [d0|]] eqn:Hsend0;
    try (intros [= <-]; exists [], req0; left; eexists; split; [done|];
         split_and!; try done; unfold unusable; by rewrite Hsend0).
  destruct (lookup_resource d0 resource_field) as [rd0|] eqn:Hrd0.
  2:{ intros [= <-]. exists [], req0. left. exists []. split_and!; try done.
      unfold unusable. by rewrite Hsend0. }
  assert (Hb : batch_of rd0
               = (default [] (rd_nodes rd0),
                  nested_field_generators (default [] (rd_nodes rd0)))) by done.
  destruct (default [] (rd_nodes rd0)) as [|n ns] eqn:Hnodes; [done|].
  destruct (rd_pageInfo rd0) as [pi0|] eqn:Hpi0.
  2:{ intros [= <-]. exists [], req0. right. exists d0, rd0. rewrite Hb.
      split_and!; try done. by rewrite Hnodes. }
  destruct (hasNextPage pi0) eqn:Hnext; simpl; [|done].
  destruct (execute_paginated_from fuel (endCursor pi0)) as [t' s'] eqn:Hrec.
  intros [= <- ->].
  destruct (IH _ _ Hrec) as (pre & req & [(logs & -> & Hl)|(d & rd & -> & Hr)]).
  - exists (Call req0 :: Yield (n :: ns, nested_field_generators (n :: ns)) :: pre), req.
    left. by exists logs.
  - exists (Call req0 :: Yield (n :: ns, nested_field_generators (n :: ns)) :: pre), req.
    right. by exists d, rd.
Qed.

(** Along a chain of responses, each with nodes, each but the last
    saying that more follows: the sequence yields the batch of every
    response of the chain, in order, with one call each and no error
    logged, and stops. *)
Theorem cursor_sequence_yields_every_page pages fuel :
  follows None pages ->
  (length pages <= fuel)%nat ->
  exists t,
    _execute_paginated_query send_api_request query resource_field variables fuel
    = (t, Stopped)
    /\ yields t = map batch_of pages
    /\ length (calls t) = length pages
    /\ errors_logged t = [].
Proof. apply execute_from_follows. Qed.

(** Every batch that a cursor-style sequence yields has nodes and, for
    each node, one generator that has not started; there are as many
    calls as batches, or one more. *)
Theorem cursor_batches_pair_nodes_with_generators fuel :
  Forall (fun b : batch => b.1 <> [] /\ b.2 = nested_field_generators b.1
                           /\ length b.2 = length b.1)
         (yields (_execute_paginated_query send_api_request query resource_field
                    variables fuel).1)
  /\ (length (yields (_execute_paginated_query send_api_request query resource_field
                        variables fuel).1)
      <= length (calls (_execute_paginated_query send_api_request query resource_field
                          variables fuel).1))%nat
  /\ (length (calls (_execute_paginated_query send_api_request query resource_field
                       variables fuel).1)
      <= S (length (yields (_execute_paginated_query send_api_request query resource_field
                              variables fuel).1)))%nat.
Proof.
  destruct (execute_from_shape fuel None) as (H1 & _ & H3 & H4). split_and!; try done.
  eapply Forall_impl; [exact H1|]. intros [nodes gens] [Hne Hgens]. simpl in *.
  split_and!; try done. subst gens. unfold nested_field_generators. by rewrite length_map.
Qed.


(** A cursor-style sequence that fails ends there: with the call that
    got no usable response and the errors logged for it; or, when the
    response has nodes and no page info, with the batch of that response,
    which is yielded before the failure. *)
Theorem cursor_failure_ends_the_sequence fuel t :
  _execute_paginated_query send_api_request query resource_field variables fuel
  = (t, Failed) ->
  exists pre req,
    (exists logs, t = pre ++ Call req :: logs
       /\ calls logs = [] /\ yields logs = []
       /\ unusable send_api_request resource_field req)
    \/ (exists d rd, t = pre ++ [Call req; Yield (batch_of rd)]
          /\ send_api_request req = Body None (Some d)
          /\ lookup_resource d resource_field = Some rd
          /\ default [] (rd_nodes rd) <> []
          /\ rd_pageInfo rd = None).
Proof. apply execute_from_failed. Qed.

End Client.

(** Variables of the caller are stored after the cursor of the loop. If
    they hold the key ["cursor"], every request of the sequence carries
    the caller's value, so all requests are the first one again; and if
    they hold the key ["<field>Cursor"], the requests of the nested
    stream of that field do not depend on the cursor of the field. *)
Theorem caller_variables_override_the_cursor send_api_request query resource_field
    vars fuel :
  is_Some (Py.get vars "cursor") ->
  Forall (fun r => r = Request query (cursor_variables None (Some vars)))
         (calls (_execute_paginated_query send_api_request query resource_field
                   (Some vars) fuel).1)
  /\ (NoDup vars.*1 ->
      forall c, Py.get (cursor_variables c (Some vars)) "cursor" = Py.get vars "cursor")
  /\ (forall field_name cursor cursor' nested,
        is_Some (Py.get nested (field_name +:+ "Cursor")) ->
        field_variables field_name cursor nested = field_variables field_name cursor' nested).
Proof.
  intros Hk. split_and!.
  - destruct (execute_from_shape send_api_request query resource_field (Some vars) fuel None)
      as (_ & Hc & _).
    eapply Forall_impl; [exact Hc|]. intros r [c ->]. f_equal.
    unfold cursor_variables, Py.update. by apply update_from_head.
  - intros Hnd c. destruct Hk as [v Hv]. rewrite Hv.
    by apply get_update_right.
  - intros field_name cursor cursor' nested Hn. unfold field_variables, Py.update.
    by apply update_from_head.
Qed.

(** The chain of the two top-level responses of the example endpoint. *)
Lemma gitlab_yields_both_pages :
  exists t,
    _execute_paginated_query Examples.gitlab "Q" "projects" None 2 = (t, Stopped)
    /\ yields t = map batch_of [Examples.gitlab_page_1; Examples.gitlab_page_2]
    /\ length (calls t) = length [Examples.gitlab_page_1; Examples.gitlab_page_2]
    /\ errors_logged t = [].
Proof.
  apply (cursor_sequence_yields_every_page Examples.gitlab "Q" "projects" None
           [Examples.gitlab_page_1; Examples.gitlab_page_2] 2).
  - split; [reflexivity|]. split; [discriminate|].
    exists (PageInfo true (Some "T1")). split; [reflexivity|]. split; [reflexivity|].
    split; [reflexivity|]. split; [discriminate|].
    exists (PageInfo false None). split; reflexivity.
  - simpl. lia.
Defined.


Lemma gitlab_down_fails_after_the_first_batch :
  exists pre req,
    (exists logs,
       (_execute_paginated_query Examples.gitlab_down "Q" "projects" None 5).1
       = pre ++ Call req :: logs
       /\ calls logs = [] /\ yields logs = []
       /\ unusable Examples.gitlab_down "projects" req)
    \/ (exists d rd,
          (_execute_paginated_query Examples.gitlab_down "Q" "projects" None 5).1
          = pre ++ [Call req; Yield (batch_of rd)]
          /\ Examples.gitlab_down req = Body None (Some d)
          /\ lookup_resource d "projects" = Some rd
          /\ default [] (rd_nodes rd) <> []
          /\ rd_pageInfo rd = None).
Proof.
  apply (cursor_failure_ends_the_sequence Examples.gitlab_down "Q" "projects" None 5).
  reflexivity.
Defined.

Example gitlab_down_trace :
  _execute_paginated_query Examples.gitlab_down "Q" "projects" None 5
  = ([Call (Request "Q" [("cursor", Py.None_)]);
      Yield ([Examples.project_2], [FNew]);
      Call (Request "Q" [("cursor", Py.Str "T1")]);
      LogError "Failed to execute GraphQL query: timeout"], Failed).
Proof. reflexivity. Qed.

(** A response with nodes and no page info: its batch is yielded, then
    the sequence fails. *)
Example batch_before_missing_page_info :
  _execute_paginated_query Examples.gitlab_no_page_info "Q" "projects" None 5
  = ([Call (Request "Q" [("cursor", Py.None_)]);
      Yield ([Examples.project_2], [FNew])], Failed).
Proof. reflexivity. Qed.

Lemma caller_cursor_on_gitlab :
  Forall (fun r => r = Request "Q" (cursor_variables None (Some [("cursor", Py.Str "T1")])))
         (calls (_execute_paginated_query Examples.gitlab "Q" "projects"
                   (Some [("cursor", Py.Str "T1")]) 3).1)
  /\ (NoDup [("cursor", Py.Str "T1")].*1 ->
      forall c,
        Py.get (cursor_variables c (Some [("cursor", Py.Str "T1")])) "cursor"
        = Py.get [("cursor", Py.Str "T1")] "cursor")
  /\ (forall field_name cursor cursor' nested,
        is_Some (Py.get nested (field_name +:+ "Cursor")) ->
        field_variables field_name cursor nested = field_variables field_name cursor' nested).
Proof.
  apply (caller_variables_override_the_cursor Examples.gitlab "Q" "projects"
           [("cursor", Py.Str "T1")] 3).
  by eexists.
Defined.

End CursorSequenceFacts.

(** ** More on the nested streams and their merge *)

Module MergeRunFacts.

Import GraphQL.

Local Arguments extend : simpl never.
Local Arguments page_items : simpl never.

Lemma node_grows_keys p p' : node_grows p p' -> (fields p').*1 = (fields p).*1.
Proof.
  intros [_ H]. induction H as [|kv kv' fs fs' [Hk _] _ IH]; [done|].
  cbn [fmap list_fmap]. by rewrite IH, Hk.
Qed.

Lemma node_grows_scalar p p' field s :
  node_grows p p' -> get_field p field = Some (Scalar s) ->
  get_field p' field = Some (Scalar s).
Proof.
  intros [_ H] Hf. pose proof (MergerFacts.lookup_field_grows _ _ field H) as Hl.
  unfold get_field in *. rewrite Hf in Hl. destruct Hl as ([s'|l pi] & Hl & Hv); [|done].
  simpl in Hv. by subst.
Qed.

Lemma elem_of_pair_up projects field_iterators k it :
  (k, it) ∈ pair_up projects field_iterators ->
  (k < length projects)%nat /\ (k < length field_iterators)%nat.
Proof.
  unfold pair_up. intros [i Hi]%list_elem_of_lookup_1.
  apply lookup_zip_with_Some in Hi as (x & y & [= <- <-] & Hx & Hy).
  apply lookup_seq in Hx as [-> Hlt]. split; [done|]. by eapply lookup_lt_Some.
Qed.

Lemma pair_up_surplus projects field_iterators extra :
  (length projects <= length field_iterators)%nat ->
  pair_up projects (field_iterators ++ extra) = pair_up projects field_iterators.
Proof.
  unfold pair_up. generalize 0%nat (length projects). intros a n. revert a n.
  induction field_iterators as [|it its IH]; intros a [|n] Hn; simpl in *; try done; [lia|].
  f_equal. apply IH. lia.
Qed.

(** *** Counting items *)










Lemma paginate_anext_field send_api_request query resource_field variables p field g ev f
    page g' :
  paginate_anext send_api_request query resource_field variables p field g
  = (ev, Item f page, g') -> f = field.
Proof.
  destruct g as [|parent_id pi|]; simpl.
  - destruct (get_field p field) as [[s|l pi]|]; try done. by intros [= _ <- _ _].
  - destruct (hasNextPage pi); [|done]. destruct (endCursor pi) as [cursor|]; [|done].
    destruct (_execute_query _ _ _) as [ev0 [d|]]; [|done].
    destruct (field_of_response _ _ _ _) as [[l pi']|]; [|done]. by intros [= _ <- _ _].
  - done.
Qed.

Section Merge.

Variable send_api_request : request -> reply.
Variable query : string.
Variable resource_field : string.
Variable variables : Py.dict.

Abbreviation fetch_resume := (fetch_resume send_api_request query resource_field variables).
Abbreviation fetch_anext := (fetch_anext send_api_request query resource_field variables).
Abbreviation bounded_anext :=
  (bounded_anext send_api_request query resource_field variables).
Abbreviation wave := (wave send_api_request query resource_field variables).
Abbreviation process_waves :=
  (process_waves send_api_request query resource_field variables).
Abbreviation _process_nested_fields :=
  (_process_nested_fields send_api_request query resource_field variables).

(** *** The order of the fields *)

Lemma fetch_resume_order p gens : forall ev r st',
  fetch_resume p gens = (ev, r, st') ->
  exists gens',
    st' = FRunning gens'
    /\ gens'.*1 `suffix_of` gens.*1
    /\ match r with
       | Item f _ => exists g rest, gens' = (f, g) :: rest
       | _ => gens' = []
       end.
Proof.
  induction gens as [|[field g] rest IH]; intros ev r st'; simpl.
  { intros [= <- <- <-]. by exists []. }
  destruct (GraphQL.paginate_anext _ _ _ _ p field g) as [[ev1 r1] g1] eqn:Hpa.
  destruct r1 as [f1 page1| |].
  - intros [= <- <- <-]. apply paginate_anext_field in Hpa as ->.
    eexists. split; [done|]. split; [done|]. by eexists _, _.
  - destruct (fetch_resume p rest) as [[ev2 r2] st2] eqn:Hrec.
    intros [= <- <- <-]. destruct (IH _ _ _ eq_refl) as (gens' & -> & Hsuf & Hr).
    exists gens'. split; [done|]. split; [|done]. by apply suffix_cons_r.
  - intros [= <- <- <-]. exists []. split; [done|]. split; [|done]. apply suffix_nil.
Qed.

(** The stream of a project goes through the paginated fields in the
    order of the dict and never comes back to one: after an [anext] the
    fields left are an end part of those left before. After an item the
    stream stays with the field of the item; after an exception, as
    after the end, no field is left, so an error in one field gives up
    the fields after it. *)
Theorem stream_visits_fields_in_order p st ev r st' :
  fetch_anext p st = (ev, r, st') ->
  exists gens',
    st' = FRunning gens'
    /\ gens'.*1 `suffix_of` (generators_left p st).*1
    /\ match r with
       | Item f _ => exists g rest, gens' = (f, g) :: rest
       | _ => gens' = []
       end.
Proof. destruct st; apply fetch_resume_order. Qed.

(** *** What the snapshots show *)

(** A project whose pair is not active, because its stream is exhausted
    or has failed, is in no snapshot from there on, and is not written
    to any more. *)
Theorem dropped_project_is_left_alone fuel projects active k :
  k ∉ active.*1 ->
  (forall snap, snap ∈ (process_waves fuel projects active).1.1 -> k ∉ snap.*1)
  /\ (process_waves fuel projects active).2 !! k = projects !! k.
Proof.
  intros Hk. destruct (process_waves fuel projects active) as [[snaps s] final] eqn:Hrun.
  by eapply MergerFacts.process_waves_inactive.
Qed.

(** Every entry of every snapshot shows its project with the id, the
    keys and the scalar values that it had in the batch; a connection
    has the page info that it had in the batch, that of its first page,
    and the items that it had, with items added after them. *)
Theorem snapshots_keep_what_the_batch_had fuel projects active snap k n :
  snap ∈ (process_waves fuel projects active).1.1 ->
  (k, n) ∈ snap ->
  exists p,
    projects !! k = Some p
    /\ node_id n = node_id p
    /\ (fields n).*1 = (fields p).*1
    /\ (forall field s, get_field p field = Some (Scalar s) ->
          get_field n field = Some (Scalar s))
    /\ (forall field l pi, get_field p field = Some (Connection l pi) ->
          exists added, get_field n field = Some (Connection (l ++ added) pi)).
Proof.
  destruct (process_waves fuel projects active) as [[snaps s] final] eqn:Hrun.
  intros Hsnap Hentry.
  simpl in Hsnap.
  edestruct MergerFacts.process_waves_entries as (p & Hk & Hg);
    [exact Hrun|exact Hsnap|exact Hentry|].
  exists p. split_and!; try done.
  - symmetry. apply Hg.
  - by apply node_grows_keys.
  - intros field s0. by apply node_grows_scalar.
  - intros field l pi. by apply MergerFacts.get_field_grows.
Qed.

(** [zip] pairs as many projects with iterators as there are of both:
    a project without an iterator is never written to and is in no
    snapshot, and iterators without a project change nothing. *)
Theorem surplus_projects_and_iterators_are_ignored fuel projects field_iterators :
  (forall k, (length field_iterators <= k)%nat ->
     (_process_nested_fields fuel projects field_iterators).2 !! k = projects !! k
     /\ forall snap, snap ∈ (_process_nested_fields fuel projects field_iterators).1.1 ->
                     k ∉ snap.*1)
  /\ (forall extra, (length projects <= length field_iterators)%nat ->
        _process_nested_fields fuel projects (field_iterators ++ extra)
        = _process_nested_fields fuel projects field_iterators).
Proof.
  unfold GraphQL._process_nested_fields. split.
  - intros k Hk.
    assert (Hout : k ∉ (pair_up projects field_iterators).*1).
    { intros ([k0 it] & -> & Hin)%list_elem_of_fmap.
      apply elem_of_pair_up in Hin as [_ Hlt]. simpl in *. lia. }
    destruct (process_waves fuel projects (pair_up projects field_iterators))
      as [[snaps s] final] eqn:Hrun.
    edestruct MergerFacts.process_waves_inactive as [Hsnaps Hfinal];
      [exact Hrun|exact Hout|].
    by split.
  - intros extra Hlen. by rewrite pair_up_surplus.
Qed.

(** *** When a wave yields *)



(** *** One project through the waves *)







End Merge.

(** *** The merge of the first batch of [Examples.gitlab] *)

Lemma stream_of_project_1_stays_with_labels :
  exists gens',
    FRunning [("labels", PYielded "gid://1" (PageInfo true (Some "L1")))] = FRunning gens'
    /\ gens'.*1 `suffix_of` (generators_left Examples.project_1 FNew).*1
    /\ exists g rest, gens' = ("labels", g) :: rest.
Proof.
  apply (stream_visits_fields_in_order Examples.gitlab "Q" "projects" []
           Examples.project_1 FNew [] (Item "labels" Known)).
  reflexivity.
Defined.

Lemma project_2_without_pair_is_left_alone :
  (forall snap,
     snap ∈ (process_waves Examples.gitlab "Q" "projects" [] 5 Examples.first_batch
               [(0%nat, FNew)]).1.1 ->
     1%nat ∉ snap.*1)
  /\ (process_waves Examples.gitlab "Q" "projects" [] 5 Examples.first_batch
        [(0%nat, FNew)]).2 !! 1%nat
     = Examples.first_batch !! 1%nat.
Proof.
  apply (dropped_project_is_left_alone Examples.gitlab "Q" "projects" [] 5
           Examples.first_batch [(0%nat, FNew)] 1%nat).
  simpl. intros [H|H]%elem_of_cons; [discriminate|by apply elem_of_nil in H].
Defined.

Lemma second_snapshot_of_the_first_batch :
  exists p,
    Examples.first_batch !! 0%nat = Some p
    /\ node_id Examples.project_1_after_wave_2 = node_id p
    /\ (fields Examples.project_1_after_wave_2).*1 = (fields p).*1
    /\ (forall field s, get_field p field = Some (Scalar s) ->
          get_field Examples.project_1_after_wave_2 field = Some (Scalar s))
    /\ (forall field l pi, get_field p field = Some (Connection l pi) ->
          exists added,
            get_field Examples.project_1_after_wave_2 field
            = Some (Connection (l ++ added) pi)).
Proof.
  apply (snapshots_keep_what_the_batch_had Examples.gitlab "Q" "projects" [] 5
           Examples.first_batch (first_active Examples.first_batch)
           [(0%nat, Examples.project_1_after_wave_2)] 0%nat
           Examples.project_1_after_wave_2).
  - vm_compute. apply list_elem_of_further, list_elem_of_here.
  - apply list_elem_of_here.
Defined.



(** *** [get_resource] and the merger together *)


End MergeRunFacts.

(** ** More on the semaphore of a wave *)

Module GatherRunFacts.

Import Gather.

Lemma steps_left_insert ts : forall K i t t',
  ts !! i = Some t ->
  (steps_left (Sched K (<[i := t']> ts)) + pending t
   = steps_left (Sched K ts) + pending t')%nat.
Proof.
  unfold steps_left. cbn [tasks].
  induction ts as [|a ts IH]; intros K [|i] t t'; simpl; try done.
  - intros [= ->]. lia.
  - intros Hi. pose proof (IH K i t t' Hi). lia.
Qed.

Lemma steps_left_waiting K n : steps_left (gather K n) = (2 * n)%nat.
Proof.
  unfold steps_left, gather. cbn [tasks].
  induction n as [|n IH]; simpl; [done|]. rewrite IH. lia.
Qed.

Lemma perform_steps_left s a s' :
  perform s a = Some s' -> (S (steps_left s') = steps_left s)%nat.
Proof.
  destruct s as [v ts], a as [i|i ok]; simpl.
  - destruct (ts !! i) as [[| |]|] eqn:Hi; try done. destruct v as [|v]; [done|].
    intros [= <-]. pose proof (steps_left_insert ts v i Waiting Advancing Hi) as H.
    unfold steps_left in *. simpl in *. lia.
  - destruct (ts !! i) as [[| |]|] eqn:Hi; try done.
    intros [= <-].
    pose proof (steps_left_insert ts (S v) i Advancing (Resolved ok) Hi) as H.
    unfold steps_left in *. simpl in *. lia.
Qed.

Lemma schedule_steps_left acts : forall s s',
  schedule s acts = Some s' -> (length acts + steps_left s' = steps_left s)%nat.
Proof.
  induction acts as [|a acts IH]; intros s s'; simpl.
  { by intros [= <-]. }
  destruct (perform s a) as [s1|] eqn:Hp; [|done].
  intros Hs. apply IH in Hs. apply perform_steps_left in Hp. lia.
Qed.

Lemma all_resolved_steps_left K ts :
  all_resolved (Sched K ts) = true <-> steps_left (Sched K ts) = 0%nat.
Proof.
  unfold all_resolved, steps_left. cbn [tasks].
  induction ts as [|t ts IH]; simpl; [done|].
  destruct t; simpl; try (split; [done|lia]). exact IH.
Qed.

(** Among tasks that are not all resolved, one holds the semaphore, or
    none does and one waits for it. *)
Lemma tasks_cases K ts :
  (exists i, ts !! i = Some Advancing)
  \/ (in_flight (Sched K ts) = 0%nat /\ exists i, ts !! i = Some Waiting)
  \/ all_resolved (Sched K ts) = true.
Proof.
  induction ts as [|t ts IH]; [by right; right|].
  rewrite GatherFacts.in_flight_cons.
  destruct t as [| |ok].
  - destruct IH as [[i Hi]|[[H0 _]|Hall]].
    + left. by exists (S i).
    + right; left. split; [done|]. by exists 0%nat.
    + right; left. split; [|by exists 0%nat].
      by rewrite (GatherFacts.in_flight_resolved K ts Hall).
  - left. by exists 0%nat.
  - destruct IH as [[i Hi]|[[H0 [i Hi]]|Hall]].
    + left. by exists (S i).
    + right; left. split; [done|]. by exists (S i).
    + by right; right.
Qed.

(** With a semaphore of at least one, a wave cannot block, in whatever
    order the event loop runs the tasks and whichever of them raise:
    while a task is not resolved some step can be taken, every step
    brings the wave nearer to its end, and the wave is over after two
    steps per task, when each task has entered the block once and left
    it once. *)
Theorem wave_cannot_block K n acts s :
  (1 <= K)%nat ->
  schedule (gather K n) acts = Some s ->
  (length acts + steps_left s = 2 * n)%nat
  /\ (all_resolved s = true <-> length acts = (2 * n)%nat)
  /\ (all_resolved s = false -> exists a, is_Some (perform s a)).
Proof.
  intros HK Hs.
  pose proof (schedule_steps_left _ _ _ Hs) as Hsteps.
  rewrite steps_left_waiting in Hsteps.
  destruct (GatherFacts.schedule_invariant _ _ _ Hs) as [Hinv _].
  rewrite GatherFacts.in_flight_waiting in Hinv. cbn [gather sem_value] in Hinv.
  destruct s as [v ts]. cbn [sem_value] in Hinv.
  split_and!.
  - done.
  - rewrite all_resolved_steps_left. lia.
  - intros Hnot. destruct (tasks_cases v ts) as [[i Hi]|[[H0 [i Hi]]|Hall]].
    + exists (Release i true). unfold perform. cbn [tasks]. by rewrite Hi.
    + exists (Acquire i). unfold perform. cbn [tasks sem_value]. rewrite Hi.
      destruct v as [|v]; [lia|done].
    + congruence.
Qed.

Lemma three_tasks_half_way :
  (length [Acquire 0; Acquire 1; Release 0 false]
   + steps_left (Sched 49 [Resolved false; Advancing; Waiting]) = 2 * 3)%nat
  /\ (all_resolved (Sched 49 [Resolved false; Advancing; Waiting]) = true
      <-> length [Acquire 0; Acquire 1; Release 0 false] = (2 * 3)%nat)
  /\ (all_resolved (Sched 49 [Resolved false; Advancing; Waiting]) = false ->
      exists a, is_Some (perform (Sched 49 [Resolved false; Advancing; Waiting]) a)).
Proof.
  apply (wave_cannot_block SEMAPHORE_LIMIT 3 [Acquire 0; Acquire 1; Release 0 false]
           (Sched 49 [Resolved false; Advancing; Waiting])).
  - unfold SEMAPHORE_LIMIT. lia.
  - reflexivity.
Defined.

End GatherRunFacts.
